(** * mysql-dto-generator: type mapping and DTO text generation

    A shallow embedding of [src/mysql-info.ts] (row types and the ordered
    table [MySqlColumnTypePatterns]) and of [src/mysql-dto-generator.ts]
    (class [MySqlDtoGenerator]), followed by the properties the
    specification states about them.

    Strings are sequences of 8-bit characters ([string]); a promise is
    modelled by its outcome ([Promise]: resolved with a value or rejected
    with an error). *)

From Stdlib Require Import List String Ascii Bool Arith NArith Lia Sorted.
From Stdlib Require Import DecimalString.
Import ListNotations.

Local Open Scope list_scope.
Local Open Scope string_scope.

Set Implicit Arguments.

(* ===================================================================== *)
(** * Text helpers *)
(* ===================================================================== *)

(** The line feed that ends every line of a template literal. *)
Definition LF : string := String (ascii_of_nat 10) "".

(** [Array.prototype.join(sep)] on an array of strings. *)
Fixpoint join (sep : string) (parts : list string) : string :=
  match parts with
  | [] => ""
  | [p] => p
  | p :: rest => p ++ sep ++ join sep rest
  end.

(** [`${v}`] for a value of type [string | null]. *)
Definition showNullable (v : option string) : string :=
  match v with
  | Some s => s
  | None => "null"
  end.

(** [`${n}`] for a number holding a non-negative integer (the catalog's
    lengths are below 2^32, far from the exponent notation of large
    numbers). *)
Definition showNumber (n : N) : string :=
  NilEmpty.string_of_uint (N.to_uint n).

(** [v ?? ''] *)
Definition orEmpty (v : option string) : string :=
  match v with
  | Some s => s
  | None => ""
  end.

(** Truthiness of a [string | null]: [null] and [''] are falsy. *)
Definition truthy (v : option string) : bool :=
  match v with
  | Some s => negb (s =? "")
  | None => false
  end.

(* ===================================================================== *)
(** * Regular expressions of the rule table *)
(* ===================================================================== *)

(** The literals of [MySqlColumnTypePatterns] are sequences of atoms, each
    optionally followed by [+]; an atom is a pattern character (possibly
    escaped, as in [\(]), the class [\d] or the wildcard [.]; all of them
    carry the flag [i]. *)
Inductive CharSet : Type :=
  | Lit (c : ascii)
  | Digit
  | AnyChar.

Inductive Term : Type :=
  | One (a : CharSet)
  | Many (a : CharSet).

Definition RegExp : Type := list Term.

Inductive Token : Type :=
  | TAtom (a : CharSet)
  | TPlus.

(** Reading of a literal's source text between the slashes. *)
Fixpoint tokens (src : string) : list Token :=
  match src with
  | "" => []
  | String "\" (String "d" rest) => TAtom Digit :: tokens rest
  | String "\" (String c rest) => TAtom (Lit c) :: tokens rest
  | String "." rest => TAtom AnyChar :: tokens rest
  | String "+" rest => TPlus :: tokens rest
  | String c rest => TAtom (Lit c) :: tokens rest
  end.

Fixpoint terms (ts : list Token) : RegExp :=
  match ts with
  | [] => []
  | TAtom a :: TPlus :: rest => Many a :: terms rest
  | TAtom a :: rest => One a :: terms rest
  | TPlus :: rest => terms rest
  end.

(** [/src/i] *)
Definition rx (src : string) : RegExp := terms (tokens src).

(** Canonicalisation under the flag [i]: a letter [a]..[z] is compared as
    its upper-case form; no other 8-bit character folds onto an ASCII
    one. *)
Definition canonicalize (c : ascii) : ascii :=
  let n := N_of_ascii c in
  if ((97 <=? n) && (n <=? 122))%N then ascii_of_N (n - 32) else c.

Definition isDigit (c : ascii) : bool :=
  let n := N_of_ascii c in ((48 <=? n) && (n <=? 57))%N.

Definition isLineTerminator (c : ascii) : bool :=
  let n := N_of_ascii c in ((n =? 10) || (n =? 13))%N.

Definition accepts (a : CharSet) (c : ascii) : bool :=
  match a with
  | Lit x => Ascii.eqb (canonicalize x) (canonicalize c)
  | Digit => isDigit c
  | AnyChar => negb (isLineTerminator c)
  end.

(** [a+] followed by the continuation [k]: greedy, giving characters back
    one at a time. *)
Fixpoint matchMany (a : CharSet) (k : string -> bool) (s : string) : bool :=
  match s with
  | "" => false
  | String c s' => accepts a c && (matchMany a k s' || k s')
  end.

(** Does the pattern match at the start of [s]? *)
Fixpoint matchHere (p : RegExp) (s : string) : bool :=
  match p with
  | [] => true
  | One a :: p' =>
      match s with
      | "" => false
      | String c s' => accepts a c && matchHere p' s'
      end
  | Many a :: p' => matchMany a (matchHere p') s
  end.

(** [re.test(s)] for a literal without the flags [g] and [y]: the match is
    tried at index 0, then 1, ... up to the length of [s]. *)
Fixpoint test (p : RegExp) (s : string) : bool :=
  matchHere p s ||
  match s with
  | "" => false
  | String _ s' => test p s'
  end.

(** ** Declarative reading of a pattern *)

(** [Run a cs]: [cs] is a non-empty run of characters of [a]. *)
Inductive Run (a : CharSet) : string -> Prop :=
  | Run_one c : accepts a c = true -> Run a (String c "")
  | Run_more c cs : accepts a c = true -> Run a cs -> Run a (String c cs).

(** [Matches p m]: the whole of [m] is a word of the pattern [p]. *)
Inductive Matches : RegExp -> string -> Prop :=
  | Matches_nil : Matches [] ""
  | Matches_one a c p m :
      accepts a c = true -> Matches p m -> Matches (One a :: p) (String c m)
  | Matches_many a cs p m :
      Run a cs -> Matches p m -> Matches (Many a :: p) (cs ++ m).

(** [Occurs p d]: some substring of [d] is a word of [p] (unanchored
    match). *)
Definition Occurs (p : RegExp) (d : string) : Prop :=
  exists pre m suf, d = pre ++ m ++ suf /\ Matches p m.

(* ===================================================================== *)
(** * mysql-info.ts: the ordered rule table *)
(* ===================================================================== *)

Record TypePattern : Type := { ts : string; re : RegExp }.

Definition MySqlColumnTypePatterns : list TypePattern :=
  [ {| ts := "number"; re := rx "bigint" |};
    {| ts := "number"; re := rx "bigint unsigned" |};
    {| ts := "any";    re := rx "binary\(\d+\)" |};
    {| ts := "any";    re := rx "blob" |};
    {| ts := "string"; re := rx "char\(\d+\)" |};
    {| ts := "string"; re := rx "datetime" |};
    {| ts := "number"; re := rx "decimal\(\d+,\d+\)" |};
    {| ts := "number"; re := rx "decimal\(\d+,\d+\) unsigned" |};
    {| ts := "number"; re := rx "double" |};
    {| ts := "number"; re := rx "double\(\d+,\d+\)" |};
    {| ts := "string"; re := rx "enum\(.+\)" |};
    {| ts := "number"; re := rx "float" |};
    {| ts := "number"; re := rx "float unsigned" |};
    {| ts := "number"; re := rx "float\(\d+,\d+\)" |};
    {| ts := "number"; re := rx "int" |};
    {| ts := "number"; re := rx "int unsigned" |};
    {| ts := "any";    re := rx "json" |};
    {| ts := "any";    re := rx "longblob" |};
    {| ts := "string"; re := rx "longtext" |};
    {| ts := "any";    re := rx "mediumblob" |};
    {| ts := "number"; re := rx "mediumint unsigned" |};
    {| ts := "string"; re := rx "mediumtext" |};
    {| ts := "string"; re := rx "set\(.+\)" |};
    {| ts := "number"; re := rx "smallint" |};
    {| ts := "number"; re := rx "smallint unsigned" |};
    {| ts := "string"; re := rx "text" |};
    {| ts := "string"; re := rx "time" |};
    {| ts := "string"; re := rx "time\(\d+\)" |};
    {| ts := "string"; re := rx "timestamp" |};
    {| ts := "string"; re := rx "timestamp\(\d+\)" |};
    {| ts := "number"; re := rx "tinyint" |};
    {| ts := "number"; re := rx "tinyint unsigned" |};
    {| ts := "number"; re := rx "tinyint\(\d+\)" |};
    {| ts := "any";    re := rx "varbinary\(\d+\)" |};
    {| ts := "string"; re := rx "varchar\(\d+\)" |} ].

(** ** Positions in the rule table *)

Definition CharSet_eq_dec (a b : CharSet) : {a = b} + {a <> b}.
Proof. decide equality. apply ascii_dec. Defined.

Definition Term_eq_dec (a b : Term) : {a = b} + {a <> b}.
Proof. decide equality; apply CharSet_eq_dec. Defined.

Definition RegExp_eq_dec : forall a b : RegExp, {a = b} + {a <> b} :=
  list_eq_dec Term_eq_dec.

(** Index in [rules] of the first rule whose pattern is [r]. *)
Fixpoint positionIn (rules : list TypePattern) (r : RegExp) : option nat :=
  match rules with
  | [] => None
  | rule :: rest =>
      if RegExp_eq_dec (re rule) r then Some 0
      else option_map S (positionIn rest r)
  end.

Definition position (r : RegExp) : option nat :=
  positionIn MySqlColumnTypePatterns r.

(** Category of the rule at index [i]. *)
Definition categoryAt (i : nat) : option string :=
  option_map ts (nth_error MySqlColumnTypePatterns i).

(** The patterns of the specific numeric subtypes and the bare generic
    ones. *)
Definition specificNumericPatterns : list RegExp :=
  [ rx "bigint"; rx "smallint"; rx "tinyint"; rx "mediumint unsigned";
    rx "decimal\(\d+,\d+\)"; rx "float\(\d+,\d+\)"; rx "double\(\d+,\d+\)" ].

Definition bareGenericPatterns : list RegExp :=
  [ rx "int"; rx "float"; rx "double" ].

(** [alsoMatches g s]: the pattern [g] matches every description that the
    pattern [s] matches. *)
Definition alsoMatches (g s : RegExp) : Prop :=
  forall d, test s d = true -> test g d = true.

(** The row types of the three catalog queries. Of the many columns of a
    catalog row only the fields the generator reads are kept. *)
Record MySqlSchema : Type := {
  schema_name : option string
}.

Record MySqlTable : Type := {
  table_comment : option string;
  table_name : option string
}.

Record MySqlColumn : Type := {
  character_maximum_length : option N;
  column_comment : option string;
  column_default : option string;
  column_name : option string;
  column_type : string;
  data_type : option string;
  is_nullable : string;
  ordinal_position : N;
  column_table_name : option string  (* the column row's [table_name] *)
}.

(** The outcome of an awaited promise. *)
Inductive Promise (A : Type) : Type :=
  | Resolved (a : A)
  | Rejected (err : string).

Arguments Resolved {A} a.
Arguments Rejected {A} err.

Definition await {A B : Type} (p : Promise A) (k : A -> Promise B)
  : Promise B :=
  match p with
  | Resolved a => k a
  | Rejected err => Rejected err
  end.

Notation "x <- p ;; k" := (await p (fun x => k))
  (at level 61, p at next level, right associativity).

(** [MySqlInfoService] as the generator uses it: [schemata()], and for a
    schema name [schema(name).tables()] and [schema(name).columns()]. The
    rows are whatever the database answers to [sqlSelectSchemata],
    [sqlSelectTables] and [sqlSelectColumns]; a failed query rejects. *)
Record MySqlInfoService : Type := {
  schemata : Promise (list MySqlSchema);
  tables : string -> Promise (list MySqlTable);
  columns : string -> Promise (list MySqlColumn)
}.

(** The names [sqlSelectSchemata] excludes with [NOT IN]. *)
Definition systemSchemas : list string :=
  ["mysql"; "sys"; "information_schema"; "performance_schema"].

(* ===================================================================== *)
(** * utils.ts: the type mapper *)
(* ===================================================================== *)

Module Utils.

(** Modelled from the spec: the function [getTsType] of [./utils], which
    [mysql-dto-generator.ts] imports and which is not among the sources.
    Section 4.1: the description is tested against each rule's pattern in
    list order, the category of the first rule whose pattern matches is
    returned without scanning further, and the opaque category is the
    fallback when no rule matches. *)
Fixpoint firstMatch (rules : list TypePattern) (description : string)
  : option string :=
  match rules with
  | [] => None
  | rule :: rest =>
      if test (re rule) description then Some (ts rule)
      else firstMatch rest description
  end.

(** Modelled from the spec: see [firstMatch]; the opaque category of the
    rule table is ['any']. *)
Definition tsTypeOf (description : string) : string :=
  match firstMatch MySqlColumnTypePatterns description with
  | Some t => t
  | None => "any"
  end.

(** Modelled from the spec: [getTsType(c)] of [./utils]; the native type
    description of a column (as in "varchar(255)", "bigint unsigned") is
    its [column_type]. *)
Definition getTsType (c : MySqlColumn) : string :=
  tsTypeOf (column_type c).

End Utils.

(* ===================================================================== *)
(** * mysql-dto-generator.ts: class MySqlDtoGenerator *)
(* ===================================================================== *)

Record GenerateSchemaOutput : Type := {
  schemaName : string;
  content : string
}.

(** [a === b] on values of type [string | null]. *)
Definition strictEq (a b : option string) : bool :=
  match a, b with
  | Some x, Some y => x =? y
  | None, None => true
  | _, _ => false
  end.

Section Generator.

(** [getTsType] is imported from [./utils]. *)
Variable getTsType : MySqlColumn -> string.

(** The locals of [_generateColumnDefinition]. *)
Definition readonly : string := "".

Definition nullable (c : MySqlColumn) : string :=
  if is_nullable c =? "YES" then " | null" else "".

Definition maxChars (c : MySqlColumn) : string :=
  match character_maximum_length c with
  | Some n => if (n =? 0)%N then "" else "(" ++ showNumber n ++ ")"
  | None => ""
  end.

Definition columnCommentLine (c : MySqlColumn) : string :=
  let columnComment := orEmpty (column_comment c) in
  if columnComment =? "" then "" else LF ++ "   * " ++ columnComment.

Definition _generateColumnDefinition (c : MySqlColumn) : string :=
  let tsType := getTsType c in
  let comment := columnCommentLine c in
  LF ++
  "  /**" ++ comment ++ LF ++
  "   * Type: " ++ showNullable (data_type c) ++ maxChars c ++ LF ++
  "   * Default value: " ++ showNullable (column_default c) ++ LF ++
  "   */" ++ LF ++
  "  " ++ readonly ++ showNullable (column_name c) ++ ": " ++ tsType
       ++ nullable c ++ ";".

(** The locals of [_generateTableModels]. *)
Definition columnListAll (columns : list MySqlColumn)
  : list (MySqlColumn * string) :=
  map (fun column => (column, _generateColumnDefinition column)) columns.

Definition columnListWritable (columns : list MySqlColumn) : list string :=
  map snd (columnListAll columns).

Definition allColumnsWritable (columns : list MySqlColumn) : bool :=
  Nat.eqb (List.length (columnListAll columns))
          (List.length (columnListWritable columns)).

Definition tableCommentLine (table : MySqlTable) : string :=
  let tableComment := orEmpty (table_comment table) in
  if tableComment =? "" then "" else LF ++ " * " ++ tableComment.

(** The template of the first branch (all columns writable). *)
Definition unifiedModel (tableName comment columnListAllText : string)
  : string :=
  LF ++
  "/**" ++ LF ++
  " * Model for read & write operations on table " ++ tableName ++ comment
        ++ LF ++
  " */" ++ LF ++
  "export interface " ++ tableName ++ "DtoWritable {" ++ LF ++
  columnListAllText ++ LF ++
  "}" ++ LF ++
  "export type " ++ tableName ++ "Dto = " ++ tableName ++ "DtoWritable;".

(** The template of the second branch. *)
Definition splitModel
  (tableName comment columnListToWriteText columnListReadOnlyText : string)
  : string :=
  LF ++
  "/**" ++ LF ++
  " * Model for write operations on table " ++ tableName ++ comment ++ LF ++
  " */" ++ LF ++
  "export interface " ++ tableName ++ "DtoWritable {" ++ LF ++
  columnListToWriteText ++ LF ++
  "}" ++ LF ++
  "/**" ++ LF ++
  " * Model for read operations on table " ++ tableName ++ LF ++
  " */" ++ LF ++
  "export interface " ++ tableName ++ "Dto extends " ++ tableName
        ++ "DtoWritable {" ++ LF ++
  columnListReadOnlyText ++ LF ++
  "}".

(** The [do { ... } while (false)] block runs once; its [break] is the
    first branch of the conditional. *)
Definition _generateTableModels (table : MySqlTable)
  (columns : list MySqlColumn) : string :=
  let tableName := orEmpty (table_name table) in
  let comment := tableCommentLine table in
  if allColumnsWritable columns then
    let columnListAllText := join LF (map snd (columnListAll columns)) in
    unifiedModel tableName comment columnListAllText
  else
    let columnListToWriteText := join LF (columnListWritable columns) in
    let columnListReadOnly := map snd (columnListAll columns) in
    let columnListReadOnlyText := join LF columnListReadOnly in
    splitModel tableName comment columnListToWriteText columnListReadOnlyText.

(** [columnRows.filter(c => c.table_name === tableRow.table_name)] *)
Definition columnsOfTable (tableRow : MySqlTable)
  (columnRows : list MySqlColumn) : list MySqlColumn :=
  filter (fun c => strictEq (column_table_name c) (table_name tableRow))
         columnRows.

(** The loop of [_generateSchema] over the table rows; [modelList] is the
    array built so far. *)
Fixpoint tableLoop (tableRows : list MySqlTable)
  (columnRows : list MySqlColumn) (modelList : list string) : list string :=
  match tableRows with
  | [] => modelList
  | tableRow :: rest =>
      if negb (truthy (table_name tableRow)) then
        tableLoop rest columnRows modelList
      else
        let tableModels :=
          _generateTableModels tableRow (columnsOfTable tableRow columnRows) in
        tableLoop rest columnRows (modelList ++ [tableModels])%list
  end.

Definition schemaContent (modelsText : string) : string :=
  LF ++
  "import { JsonType } from './_types';" ++ LF ++
  modelsText ++ LF.

Definition _generateSchema (svc : MySqlInfoService) (name : string)
  : Promise GenerateSchemaOutput :=
  tableRows <- tables svc name ;;
  columnRows <- columns svc name ;;
  let modelList := tableLoop tableRows columnRows [] in
  let modelsText := join LF modelList in
  Resolved {| schemaName := name; content := schemaContent modelsText |}.

Definition _generateCommonTypes : GenerateSchemaOutput :=
  {| schemaName := "_types";
     content :=
       LF ++
       "// recursive JSON type; you can append nullable or not" ++ LF ++
       "export type JsonType = string | number | boolean | { [x: string]: JsonType } | Array<JsonType>;"
       ++ LF ++
       "    " |}.

(** The loop of [generate] over the schema rows; [output] is the array
    built so far. *)
Fixpoint schemaLoop (svc : MySqlInfoService) (schemaRows : list MySqlSchema)
  (output : list GenerateSchemaOutput) : Promise (list GenerateSchemaOutput) :=
  match schemaRows with
  | [] => Resolved output
  | schemaRow :: rest =>
      match schema_name schemaRow with
      | Some name =>
          if name =? "" then schemaLoop svc rest output
          else
            schemaOut <- _generateSchema svc name ;;
            schemaLoop svc rest (output ++ [schemaOut])%list
      | None => schemaLoop svc rest output
      end
  end.

Definition generate (svc : MySqlInfoService)
  : Promise (list GenerateSchemaOutput) :=
  schemaRows <- schemata svc ;;
  schemaLoop svc schemaRows [_generateCommonTypes].

(** ** Reading aids for the statements

    The text of [_generateColumnDefinition] in its two parts: the
    documentation block, and the declaration line that follows it. *)
Definition documentationBlock (c : MySqlColumn) : string :=
  LF ++
  "  /**" ++ columnCommentLine c ++ LF ++
  "   * Type: " ++ showNullable (data_type c) ++ maxChars c ++ LF ++
  "   * Default value: " ++ showNullable (column_default c) ++ LF ++
  "   */".

(** The declaration line of a field of type [fieldType]. *)
Definition fieldDeclaration (c : MySqlColumn) (fieldType : string) : string :=
  LF ++ "  " ++ showNullable (column_name c) ++ ": " ++ fieldType ++ ";".

(** The columns behind the fields of a table block, in the order of the
    fields. *)
Definition emittedColumns (columns : list MySqlColumn) : list MySqlColumn :=
  map fst (columnListAll columns).

End Generator.

(** The schema names [generate] goes on with: those of the rows whose
    [schema_name] is neither [null] nor empty, in the order of the rows. *)
Fixpoint survivingNames (schemaRows : list MySqlSchema) : list string :=
  match schemaRows with
  | [] => []
  | schemaRow :: rest =>
      match schema_name schemaRow with
      | Some name =>
          if name =? "" then survivingNames rest
          else name :: survivingNames rest
      | None => survivingNames rest
      end
  end.


Definition withColumnDefault (v : option string) (c : MySqlColumn)
  : MySqlColumn :=
  {| character_maximum_length := character_maximum_length c;
     column_comment := column_comment c;
     column_default := v;
     column_name := column_name c;
     column_type := column_type c;
     data_type := data_type c;
     is_nullable := is_nullable c;
     ordinal_position := ordinal_position c;
     column_table_name := column_table_name c |}.

(** Ascending order of a list of ordinal positions. *)
Definition ascending (ordinals : list N) : Prop := Sorted N.le ordinals.

(* ===================================================================== *)
(** * Effects: calls on the collaborators, in order *)
(* ===================================================================== *)

From Stdlib Require Import ZArith.

(** The connection settings [main] hands to [createPool]. *)
Record DbOptions : Type := {
  db_host : string;
  db_port : string;
  db_user : string;
  db_password : string;
  db_database : string
}.

(** A call made on a collaborator. The output of [console.info] and
    [console.debug] is not recorded. *)
Inductive Event : Type :=
  | EvGetConnection
  | EvClientQuery (text : string) (values : list string)
  | EvRelease
  | EvLoggerError (msg err : string)
  | EvCreatePool (dbOptions : DbOptions)
  | EvPoolQuery (sql : string)
  | EvWriteSchemaFile (outDir name body : string)
  | EvPoolEnd
  | EvConsoleError (err : string)
  | EvExit (code : Z).

(** A computation: the calls it made and how it completed. *)
Definition Traced (A : Type) : Type := (list Event * Promise A)%type.

Definition ret {A : Type} (a : A) : Traced A := ([], Resolved a).

(** [throw err] *)
Definition throw {A : Type} (err : string) : Traced A := ([], Rejected err).

(** A call without a result of interest. *)
Definition emit (ev : Event) : Traced unit := ([ev], Resolved tt).

(** A call whose outcome is [p]. *)
Definition call {A : Type} (ev : Event) (p : Promise A) : Traced A := ([ev], p).

(** A step that calls no collaborator. *)
Definition step {A : Type} (p : Promise A) : Traced A := ([], p).

Definition bindT {A B : Type} (m : Traced A) (k : A -> Traced B) : Traced B :=
  match m with
  | (t1, Resolved a) => let (t2, r) := k a in ((t1 ++ t2)%list, r)
  | (t1, Rejected err) => (t1, Rejected err)
  end.

(** [try { m } catch (err) { handler err }] *)
Definition tryCatch {A : Type} (m : Traced A) (handler : string -> Traced A)
  : Traced A :=
  match m with
  | (t1, Resolved a) => (t1, Resolved a)
  | (t1, Rejected err) => let (t2, r) := handler err in ((t1 ++ t2)%list, r)
  end.

(** [try { m } finally { f }]: [f] runs on both paths; the completion of
    [m] stands unless [f] throws. *)
Definition finally {A : Type} (m : Traced A) (f : Traced unit) : Traced A :=
  match m, f with
  | (t1, r), (t2, Resolved _) => ((t1 ++ t2)%list, r)
  | (t1, _), (t2, Rejected err) => ((t1 ++ t2)%list, Rejected err)
  end.

Notation "x <~ m ;; k" := (bindT m (fun x => k))
  (at level 61, m at next level, right associativity).

(* ===================================================================== *)
(** * mysql-info.ts: class MySqlInfoService *)
(* ===================================================================== *)

Definition mySqlMsgDbQueryError : string := "DB query error".
Definition mySqlMsgDbConnError : string := "DB connection error".

(** The white space and line terminators [String.prototype.trim] strips,
    among 8-bit characters: TAB, LF, VT, FF, CR, SP and NBSP. *)
Definition isWhiteSpace (c : ascii) : bool :=
  let n := N_of_ascii c in
  (((9 <=? n) && (n <=? 13)) || (n =? 32) || (n =? 160))%N.

Fixpoint trimStart (s : string) : string :=
  match s with
  | "" => ""
  | String c s' => if isWhiteSpace c then trimStart s' else s
  end.

Fixpoint trimEnd (s : string) : string :=
  match s with
  | "" => ""
  | String c s' =>
      let t := trimEnd s' in
      if isWhiteSpace c && (t =? "") then "" else String c t
  end.

(** [s.trim()] *)
Definition trim (s : string) : string := trimEnd (trimStart s).

(** The constructor of [MySqlInfoService]: it keeps [dbName], or throws. *)
Definition newMySqlInfoService (dbName : string) : Promise string :=
  if trim dbName =? "" then Rejected "invalid database name"
  else Resolved dbName.

Section Query.

(** The row type [TRow] of [query<TRow>]. *)
Variable TRow : Type.

(** A pooled connection: what [client.query(text, values)] answers.
    [client.release()] and the logger return normally and are recorded
    as calls. *)
Record Connection : Type := {
  client_query : string -> list string -> Promise (list TRow)
}.

(** [result.forEach(row => rows.push(row))] *)
Definition pushAll (rows result : list TRow) : list TRow :=
  fold_left (fun rows row => (rows ++ [row])%list) result rows.

(** [query(text, values)], given the outcome [getConnection] of
    [this._db.getConnection()]. The inner [try] statement yields the
    locals [rows] and [dbErr] as it leaves them. *)
Definition query (getConnection : Promise Connection)
  (text : string) (values : list string) : Traced (list TRow) :=
  let rows : list TRow := [] in
  let dbErr : option string := None in
  locals <~
    tryCatch
      (client <~ call EvGetConnection getConnection ;;
       finally
         (tryCatch
            (result <~ call (EvClientQuery text values)
                            (client_query client text values) ;;
             ret (pushAll rows result, dbErr))
            (fun err =>
               _ <~ emit (EvLoggerError mySqlMsgDbQueryError err) ;;
               ret (rows, Some err)))
         (emit EvRelease))
      (fun err =>
         _ <~ emit (EvLoggerError mySqlMsgDbConnError err) ;;
         throw err) ;;
  let '(rows, dbErr) := locals in
  if truthy dbErr then throw (orEmpty dbErr) else ret rows.

End Query.

(* ===================================================================== *)
(** * index.ts: main *)
(* ===================================================================== *)

(** The options read by [cmd.opts()]. *)
Record Options : Type := {
  opt_host : option string;
  opt_port : option string;
  opt_user : option string;
  opt_password : option string;
  opt_database : option string;
  opt_outdir : option string
}.

(** [v ?? dflt] *)
Definition orDefault (v : option string) (dflt : string) : string :=
  match v with
  | Some s => s
  | None => dflt
  end.

(** What [main] meets outside this repository's sources: the outcome of
    [makeCommand()], [cmd.parse(process.argv)] and [cmd.opts()]; the
    outcome of [dbPool.query('SELECT 1 AS success')]; the answers of the
    database to the catalog queries of the service built on the pool; the
    outcome of [writeSchemaFile(outDir, schemaName, content)]. *)
Record Environment : Type := {
  env_options : Promise Options;
  env_selectOne : Promise unit;
  env_catalog : MySqlInfoService;
  env_writeSchemaFile : string -> string -> string -> Promise unit
}.

Section Main.

Variable getTsType : MySqlColumn -> string.
Variable env : Environment.

(** The loop of [main] over [schemaOutputList]. *)
Fixpoint writeLoop (outDir : string)
  (schemaOutputList : list GenerateSchemaOutput) : Traced unit :=
  match schemaOutputList with
  | [] => ret tt
  | schemaOutput :: rest =>
      _ <~ call (EvWriteSchemaFile outDir (schemaName schemaOutput)
                                   (content schemaOutput))
                (env_writeSchemaFile env outDir (schemaName schemaOutput)
                                     (content schemaOutput)) ;;
      writeLoop outDir rest
  end.

(** [main()]: its calls, ending with [process.exit(exitCode)]. Each [try]
    statement yields [exitCode] as it leaves it. [createPool],
    [dbPool.end()] (which is not awaited) and [console.error] return
    normally. *)
Definition main : Traced Z :=
  let exitCode : Z := 0%Z in
  exitCode <~
    tryCatch
      (options <~ step (env_options env) ;;
       let dbOptions :=
         {| db_host := orDefault (opt_host options) "localhost";
            db_port := orDefault (opt_port options) "5432";
            db_user := orDefault (opt_user options) "";
            db_password := orDefault (opt_password options) "";
            db_database := orDefault (opt_database options) "" |} in
       let outDir := trim (orDefault (opt_outdir options) "") in
       if outDir =? "" then throw "Output directory is required"
       else
         _ <~ emit (EvCreatePool dbOptions) ;;
         finally
           (tryCatch
              (_ <~ call (EvPoolQuery "SELECT 1 AS success")
                         (env_selectOne env) ;;
               _ <~ step (newMySqlInfoService (db_database dbOptions)) ;;
               schemaOutputList <~
                 step (generate getTsType (env_catalog env)) ;;
               _ <~ writeLoop outDir schemaOutputList ;;
               ret exitCode)
              (fun err =>
                 _ <~ emit (EvConsoleError err) ;;
                 ret (-1)%Z))
           (emit EvPoolEnd))
      (fun err =>
         _ <~ emit (EvConsoleError err) ;;
         ret (-1)%Z) ;;
  _ <~ emit (EvExit exitCode) ;;
  ret exitCode.

(** What [main] does once the options are read and the output directory
    is not blank: the calls between [createPool] and [dbPool.end()], and
    the exit code. *)
Definition session (options : Options) : Traced Z :=
  let outDir := trim (orDefault (opt_outdir options) "") in
  tryCatch
    (_ <~ call (EvPoolQuery "SELECT 1 AS success") (env_selectOne env) ;;
     _ <~ step (newMySqlInfoService (orDefault (opt_database options) "")) ;;
     schemaOutputList <~ step (generate getTsType (env_catalog env)) ;;
     _ <~ writeLoop outDir schemaOutputList ;;
     ret 0%Z)
    (fun err => _ <~ emit (EvConsoleError err) ;; ret (-1)%Z).

End Main.

(** ** Reading aids for the statements *)

(** The calls of [writeSchemaFile] in a trace: directory, name, body. *)
Definition writeCalls (trace : list Event)
  : list (string * string * string) :=
  flat_map
    (fun ev =>
       match ev with
       | EvWriteSchemaFile outDir name body => [(outDir, name, body)]
       | _ => []
       end)
    trace.

Definition isRelease (ev : Event) : bool :=
  match ev with EvRelease => true | _ => false end.


Definition isCreatePool (ev : Event) : bool :=
  match ev with EvCreatePool _ => true | _ => false end.

Definition isPoolEnd (ev : Event) : bool :=
  match ev with EvPoolEnd => true | _ => false end.

Definition countEvents (f : Event -> bool) (trace : list Event) : nat :=
  List.length (filter f trace).

(** All the characters of [s] are white space. *)
Fixpoint isBlank (s : string) : bool :=
  match s with
  | "" => true
  | String c s' => isWhiteSpace c && isBlank s'
  end.

(** The text [s] with the letters [a]..[z] in upper case. *)
Fixpoint canonicalizeAll (s : string) : string :=
  match s with
  | "" => ""
  | String c s' => String (canonicalize c) (canonicalizeAll s')
  end.

(** Is [g] a prefix, a contiguous part, of the pattern [s]? *)
Fixpoint isPrefixOf (g s : RegExp) : bool :=
  match g, s with
  | [], _ => true
  | x :: g', y :: s' =>
      if Term_eq_dec x y then isPrefixOf g' s' else false
  | _ :: _, [] => false
  end.

Fixpoint isPartOf (g s : RegExp) : bool :=
  isPrefixOf g s ||
  match s with
  | [] => false
  | _ :: s' => isPartOf g s'
  end.

(** [firstAt i d]: the rule at index [i] is the first of the table whose
    pattern tests true on [d]. *)
Definition firstAt (i : nat) (d : string) : Prop :=
  exists rule,
    nth_error MySqlColumnTypePatterns i = Some rule /\
    test (re rule) d = true /\
    forall j q, j < i -> nth_error MySqlColumnTypePatterns j = Some q ->
                test (re q) d = false.

(** Pairs (index of a rule, index of an earlier rule whose pattern is a
    contiguous part of the rule's pattern). *)
Definition shadowedRules : list (nat * nat) :=
  [ (1, 0); (7, 6); (9, 8); (12, 11); (13, 11); (15, 14); (17, 3); (19, 3);
    (20, 14); (23, 14); (24, 14); (27, 26); (28, 26); (29, 26); (30, 14);
    (31, 14); (32, 14); (33, 2); (34, 4) ].

(** The indices of the other rules. *)
Definition liveRules : list nat :=
  [0; 2; 3; 4; 5; 6; 8; 10; 11; 14; 16; 18; 21; 22; 25; 26].

(** A description on which each live rule is the first to test true. *)
Definition liveSample (i : nat) : string :=
  nth i
    [ "bigint"; ""; "binary(16)"; "blob"; "char(1)"; "datetime";
      "decimal(10,2)"; ""; "double"; ""; "enum('a','b')"; "float"; ""; "";
      "int"; ""; "json"; ""; "longtext"; ""; ""; "mediumtext";
      "set('a','b')"; ""; ""; "text"; "time" ] "".

(** The table rows with a name, and the column rows that bear the name of
    one of them. *)
Definition namedTables (tableRows : list MySqlTable) : list MySqlTable :=
  filter (fun t => truthy (table_name t)) tableRows.

Definition ofNamedTable (tableRows : list MySqlTable) (c : MySqlColumn)
  : bool :=
  existsb (fun t => strictEq (column_table_name c) (table_name t))
          (namedTables tableRows).

(* ===================================================================== *)
(** * Sample catalog rows *)
(* ===================================================================== *)

(** Two column rows used as running examples: the scenarios of the
    specification. *)
Definition column_id : MySqlColumn :=
  {| character_maximum_length := None;
     column_comment := Some "";
     column_default := None;
     column_name := Some "id";
     column_type := "bigint unsigned";
     data_type := Some "bigint";
     is_nullable := "NO";
     ordinal_position := 1;
     column_table_name := Some "users" |}.

Definition column_bio : MySqlColumn :=
  {| character_maximum_length := Some 255%N;
     column_comment := Some "User biography";
     column_default := None;
     column_name := Some "bio";
     column_type := "varchar(255)";
     data_type := Some "varchar";
     is_nullable := "YES";
     ordinal_position := 2;
     column_table_name := Some "users" |}.

Definition table_users : MySqlTable :=
  {| table_comment := None; table_name := Some "users" |}.

(** A catalog reader whose every schema holds the same tables, with the
    two columns above. *)
Definition catalogOf (rows : list MySqlSchema) (tableRows : list MySqlTable)
  : MySqlInfoService :=
  {| schemata := Resolved rows;
     tables := fun _ => Resolved tableRows;
     columns := fun _ => Resolved [column_bio; column_id] |}.

(** A column row of a view: no table row of the schema bears its
    [table_name]. *)
Definition column_of_view : MySqlColumn :=
  {| character_maximum_length := None;
     column_comment := Some "";
     column_default := None;
     column_name := Some "total";
     column_type := "int";
     data_type := Some "int";
     is_nullable := "NO";
     ordinal_position := 1;
     column_table_name := Some "v_totals" |}.

(** The catalog of [catalogOf], its column query answering the row of the
    view as well. *)
Definition catalogWithView (tableRows : list MySqlTable) : MySqlInfoService :=
  {| schemata := Resolved [];
     tables := fun _ => Resolved tableRows;
     columns := fun _ => Resolved [column_bio; column_of_view; column_id] |}.

(* ===================================================================== *)
(** * Properties of the matcher *)
(* ===================================================================== *)

Lemma append_assoc (a b c : string) : (a ++ b) ++ c = a ++ (b ++ c).
Proof. induction a as [|x a IH]; simpl; [reflexivity | now rewrite IH]. Qed.

Lemma append_nil_r (a : string) : a ++ "" = a.
Proof. induction a as [|x a IH]; simpl; [reflexivity | now rewrite IH]. Qed.

Lemma Run_nonempty a cs : Run a cs -> cs <> "".
Proof. destruct 1; discriminate. Qed.

(** [matchMany] consumes a non-empty run and hands the rest to [k]. *)
Lemma matchMany_iff a (k : string -> bool) s :
  matchMany a k s = true <->
  exists cs r, s = cs ++ r /\ Run a cs /\ k r = true.
Proof.
  induction s as [|c s IH]; simpl.
  - split; [discriminate|].
    intros (cs & r & E & HR & _). destruct HR; discriminate.
  - rewrite andb_true_iff, orb_true_iff, IH. split.
    + intros [Hc [(cs & r & -> & HR & Hk) | Hk]].
      * exists (String c cs), r. repeat split; trivial. now apply Run_more.
      * exists (String c ""), s. repeat split; trivial. now apply Run_one.
    + intros (cs & r & E & HR & Hk).
      destruct HR as [x Hx | x cs Hx HR]; simpl in E; injection E as -> ->.
      * split; [assumption | now right].
      * split; [assumption|]. left. now exists cs, r.
Qed.

(** [matchHere] holds exactly when a prefix of the text is a word of the
    pattern. *)
Lemma matchHere_iff p : forall s,
  matchHere p s = true <-> exists m r, s = m ++ r /\ Matches p m.
Proof.
  induction p as [|[a|a] p IH]; intros s; simpl.
  - split; [|reflexivity]. intros _. exists "", s. split; [reflexivity | constructor].
  - destruct s as [|c s].
    + split; [discriminate|]. intros (m & r & E & HM).
      inversion HM; subst. discriminate.
    + rewrite andb_true_iff, IH. split.
      * intros [Hc (m & r & -> & HM)].
        exists (String c m), r. split; [reflexivity | now constructor].
      * intros (m & r & E & HM). inversion HM; subst.
        simpl in E. injection E as -> ->. split; [assumption|]. eauto.
  - rewrite matchMany_iff. split.
    + intros (cs & r & -> & HR & Hk). apply IH in Hk.
      destruct Hk as (m & r' & -> & HM).
      exists (cs ++ m), r'. split; [now rewrite append_assoc | now constructor].
    + intros (m & r & -> & HM).
      inversion HM as [| | a' cs p' m' HR HM']; subst.
      exists cs, (m' ++ r). rewrite append_assoc. repeat split; trivial.
      apply IH. eauto.
Qed.

(** [test] is the unanchored match. *)
Lemma test_iff p : forall d, test p d = true <-> Occurs p d.
Proof.
  unfold Occurs. induction d as [|c d IH]; simpl; rewrite orb_true_iff.
  - rewrite matchHere_iff. split.
    + intros [(m & r & E & HM) | H]; [|discriminate]. now exists "", m, r.
    + intros (pre & m & suf & E & HM). left.
      destruct pre; [|discriminate]. simpl in E. eauto.
  - rewrite matchHere_iff, IH. split.
    + intros [(m & r & E & HM) | (pre & m & suf & -> & HM)].
      * now exists "", m, r.
      * now exists (String c pre), m, suf.
    + intros (pre & m & suf & E & HM). destruct pre as [|x pre]; simpl in E.
      * left. eauto.
      * injection E as -> ->. right. eauto.
Qed.

Lemma test_false_iff p d : test p d = false <-> ~ Occurs p d.
Proof.
  rewrite <- test_iff. destruct (test p d); split; intros; congruence.
Qed.

Lemma Matches_app p1 p2 : forall m,
  Matches (p1 ++ p2)%list m <->
  exists m1 m2, m = m1 ++ m2 /\ Matches p1 m1 /\ Matches p2 m2.
Proof.
  induction p1 as [|t p1 IH]; intros m; simpl.
  - split.
    + intros H. exists "", m. repeat split; [constructor | assumption].
    + intros (m1 & m2 & -> & H1 & H2). inversion H1; subst. assumption.
  - split.
    + intros H.
      inversion H as [| a c p m' Hc HM | a cs p m' HR HM]; subst;
        apply IH in HM; destruct HM as (m1 & m2 & -> & H1 & H2).
      * exists (String c m1), m2. repeat split; [now constructor | assumption].
      * exists (cs ++ m1), m2. rewrite append_assoc.
        repeat split; [now constructor | assumption].
    + intros (m1 & m2 & -> & H1 & H2). inversion H1; subst; simpl.
      * constructor; [assumption|]. apply IH. eauto.
      * rewrite append_assoc. constructor; [assumption|]. apply IH. eauto.
Qed.

(** A pattern that is a contiguous part of another matches whatever the
    other matches. *)
Lemma alsoMatches_infix (a g b : RegExp) : alsoMatches g (a ++ g ++ b)%list.
Proof.
  intros d. rewrite !test_iff. intros (pre & m & suf & -> & HM).
  apply Matches_app in HM. destruct HM as (ma & m' & -> & _ & HM).
  apply Matches_app in HM. destruct HM as (mg & mb & -> & HM & _).
  exists (pre ++ ma), mg, (mb ++ suf). split; [|assumption].
  now rewrite !append_assoc.
Qed.

(* ===================================================================== *)
(** * The type mapper *)
(* ===================================================================== *)

(** [firstMatch] stops at the first rule of the list whose pattern tests
    true, and finds nothing only when no pattern does. *)
Lemma firstMatch_first rules d :
  match Utils.firstMatch rules d with
  | Some t =>
      exists i rule,
        nth_error rules i = Some rule /\ test (re rule) d = true /\
        (forall j q, j < i -> nth_error rules j = Some q ->
                     test (re q) d = false) /\
        t = ts rule
  | None => forall rule, In rule rules -> test (re rule) d = false
  end.
Proof.
  induction rules as [|r rules IH]; simpl.
  - intros rule [].
  - destruct (test (re r) d) eqn:Hr.
    + exists 0, r. repeat split; trivial. intros j q Hj. lia.
    + destruct (Utils.firstMatch rules d) as [t|].
      * destruct IH as (i & rule & Hn & Ht & Hfirst & ->).
        exists (S i), rule. repeat split; trivial.
        intros [|j] q Hj Hq; simpl in Hq.
        -- now injection Hq as <-.
        -- apply (Hfirst j); [lia | assumption].
      * intros rule [<- | Hin]; [assumption | now apply IH].
Qed.

Lemma categories_closed rules d t :
  Utils.firstMatch rules d = Some t -> In t (map ts rules).
Proof.
  induction rules as [|r rules IH]; simpl; [discriminate|].
  destruct (test (re r) d).
  - intros [= <-]. now left.
  - intros H. right. now apply IH.
Qed.

(** C1: for every native type description, the type mapper returns the
    category of the first rule, in the order of [MySqlColumnTypePatterns],
    whose pattern occurs in the description (case-insensitive, unanchored),
    whatever later rules match; when no rule's pattern occurs it returns
    the opaque category ['any']. The result is always one of the three
    category names, never an empty name. *)
Theorem tsTypeOf_first_matching_rule (d : string) :
  ((exists i rule,
       nth_error MySqlColumnTypePatterns i = Some rule /\
       Occurs (re rule) d /\
       (forall j q, j < i -> nth_error MySqlColumnTypePatterns j = Some q ->
                    ~ Occurs (re q) d) /\
       Utils.tsTypeOf d = ts rule)
   \/
   ((forall rule, In rule MySqlColumnTypePatterns -> ~ Occurs (re rule) d) /\
    Utils.tsTypeOf d = "any"))
  /\ In (Utils.tsTypeOf d) ["number"; "string"; "any"]
  /\ (forall c, column_type c = d -> Utils.getTsType c = Utils.tsTypeOf d).
Proof.
  split; [|split].
  - unfold Utils.tsTypeOf.
    generalize (firstMatch_first MySqlColumnTypePatterns d).
    destruct (Utils.firstMatch MySqlColumnTypePatterns d) as [t|].
    + intros (i & rule & Hn & Ht & Hfirst & ->). left.
      exists i, rule. repeat split; trivial.
      * now apply test_iff.
      * intros j q Hj Hq. apply test_false_iff. now apply (Hfirst j).
    + intros Hnone. right. split; [|reflexivity].
      intros rule Hin. apply test_false_iff. now apply Hnone.
  - unfold Utils.tsTypeOf.
    destruct (Utils.firstMatch MySqlColumnTypePatterns d) as [t|] eqn:E.
    + apply categories_closed in E. simpl in E.
      simpl. repeat (destruct E as [<- | E]; [tauto|]). destruct E.
    + simpl. tauto.
  - intros c <-. reflexivity.
Qed.

(** Descriptions taken from the specification's examples. *)
Example tsTypeOf_examples :
  Utils.tsTypeOf "bigint unsigned" = "number" /\
  Utils.tsTypeOf "varchar(255)" = "string" /\
  Utils.tsTypeOf "DECIMAL(10,2)" = "number" /\
  Utils.tsTypeOf "mediumint" = "number" /\
  Utils.tsTypeOf "binary" = "any" /\
  Utils.tsTypeOf "json" = "any" /\
  Utils.tsTypeOf "year" = "any" /\
  Utils.tsTypeOf "" = "any".
Proof. repeat split; vm_compute; reflexivity. Qed.

(* ===================================================================== *)
(** * Order of the rule table *)
(* ===================================================================== *)

(** The bare pattern [int] matches whatever [smallint], [tinyint],
    [bigint] and [mediumint unsigned] match; [float] and [double] match
    whatever their forms with a precision match. *)
Lemma generic_also_matches :
  alsoMatches (rx "int") (rx "bigint") /\
  alsoMatches (rx "int") (rx "smallint") /\
  alsoMatches (rx "int") (rx "tinyint") /\
  alsoMatches (rx "int") (rx "mediumint unsigned") /\
  alsoMatches (rx "float") (rx "float\(\d+,\d+\)") /\
  alsoMatches (rx "double") (rx "double\(\d+,\d+\)").
Proof.
  repeat split.
  - exact (alsoMatches_infix (rx "big") (rx "int") []).
  - exact (alsoMatches_infix (rx "small") (rx "int") []).
  - exact (alsoMatches_infix (rx "tiny") (rx "int") []).
  - exact (alsoMatches_infix (rx "medium") (rx "int") (rx " unsigned")).
  - exact (alsoMatches_infix [] (rx "float") (rx "\(\d+,\d+\)")).
  - exact (alsoMatches_infix [] (rx "double") (rx "\(\d+,\d+\)")).
Qed.

(** The table is laid out alphabetically: [int] sits at index 14, before
    [smallint] at index 23, although [int] matches every description that
    [smallint] matches, such as "smallint" itself. *)
Lemma int_rule_precedes_smallint_rule :
  In (rx "smallint") specificNumericPatterns /\
  In (rx "int") bareGenericPatterns /\
  alsoMatches (rx "int") (rx "smallint") /\
  test (rx "smallint") "smallint" = true /\
  test (rx "int") "smallint" = true /\
  position (rx "smallint") = Some 23 /\
  position (rx "int") = Some 14 /\
  ~ (23 < 14).
Proof.
  repeat split; try (vm_compute; tauto); try lia.
  apply generic_also_matches.
Qed.

Ltac refute_alsoMatches H :=
  exfalso;
  first
    [ generalize (H "bigint" eq_refl)
    | generalize (H "smallint" eq_refl)
    | generalize (H "tinyint" eq_refl)
    | generalize (H "mediumint unsigned" eq_refl)
    | generalize (H "decimal(10,2)" eq_refl)
    | generalize (H "float(7,3)" eq_refl)
    | generalize (H "double(10,2)" eq_refl) ];
  vm_compute; discriminate.

(** C2 (amended): among the specific numeric patterns, only [bigint] comes
    before the bare generic pattern that also matches its descriptions;
    [smallint], [tinyint], [mediumint unsigned], [float(p,s)] and
    [double(p,s)] come after [int], [float] and [double], and
    [decimal(p,s)] is covered by no bare generic pattern. In every such
    pair both rules carry the category ['number']. *)
Theorem specific_and_generic_positions (s g : RegExp) :
  In s specificNumericPatterns ->
  In g bareGenericPatterns ->
  alsoMatches g s ->
  exists i j,
    position s = Some i /\ position g = Some j /\
    (i < j <-> s = rx "bigint") /\
    categoryAt i = Some "number" /\ categoryAt j = Some "number".
Proof.
  intros Hs Hg H. simpl in Hs, Hg.
  repeat (destruct Hs as [<- | Hs]); try contradiction;
    repeat (destruct Hg as [<- | Hg]); try contradiction;
    first
      [ refute_alsoMatches H
      | eexists; eexists;
        split; [vm_compute; reflexivity|];
        split; [vm_compute; reflexivity|];
        split; [|split; reflexivity];
        split; [ first [ reflexivity | intros ?; lia ]
               | first [ intros _; lia | intros E; vm_compute in E; discriminate ] ] ].
Qed.

Lemma specific_and_generic_positions_witness :
  exists i j,
    position (rx "tinyint") = Some i /\ position (rx "int") = Some j /\
    (i < j <-> rx "tinyint" = rx "bigint") /\
    categoryAt i = Some "number" /\ categoryAt j = Some "number".
Proof.
  apply specific_and_generic_positions.
  - simpl. tauto.
  - simpl. tauto.
  - apply generic_also_matches.
Defined.

(* ===================================================================== *)
(** * The column renderer *)
(* ===================================================================== *)

Section ColumnRenderer.

Variable getTsType : MySqlColumn -> string.

(** The rendered text is the documentation block followed by the
    declaration line, whose type is the mapped category and the
    nullability suffix. *)
Lemma column_definition_parts (c : MySqlColumn) :
  _generateColumnDefinition getTsType c =
  documentationBlock c ++ fieldDeclaration c (getTsType c ++ nullable c).
Proof.
  unfold _generateColumnDefinition, documentationBlock, fieldDeclaration,
    readonly.
  simpl. repeat (rewrite ?append_assoc; simpl). reflexivity.
Qed.


(** C5: a column whose flag is "YES" is declared with the mapped category
    followed by [ | null]; a column whose flag is "NO" is declared with the
    mapped category alone. The suffix is a function of the flag only: two
    rows with the same flag get the same suffix, and replacing the default
    value of a row leaves its suffix unchanged. *)
Theorem nullability_follows_flag (c : MySqlColumn) :
  (is_nullable c = "YES" ->
   _generateColumnDefinition getTsType c =
   documentationBlock c ++ fieldDeclaration c (getTsType c ++ " | null")) /\
  (is_nullable c = "NO" ->
   _generateColumnDefinition getTsType c =
   documentationBlock c ++ fieldDeclaration c (getTsType c)) /\
  (forall c', is_nullable c' = is_nullable c -> nullable c' = nullable c) /\
  (forall v, nullable (withColumnDefault v c) = nullable c).
Proof.
  repeat split.
  - intros H. rewrite column_definition_parts. unfold nullable.
    now rewrite H.
  - intros H. rewrite column_definition_parts. unfold nullable.
    rewrite H. simpl. now rewrite append_nil_r.
  - intros c' H. unfold nullable. now rewrite H.
Qed.

(** C8: every rendered column starts with a documentation block which
    holds, in this order, the comment line (only when the comment is not
    empty; the block is there either way), the line of the type with the
    length in parentheses (only when a length is present, and not zero),
    and the line of the default value, which reads [null] when there is no
    default. The declaration line follows the block. *)
Theorem documentation_block_contents (c : MySqlColumn) :
  (exists commentLine qualifier defaultText fieldType,
     _generateColumnDefinition getTsType c =
       LF ++ "  /**" ++ commentLine ++ LF ++
       "   * Type: " ++ showNullable (data_type c) ++ qualifier ++ LF ++
       "   * Default value: " ++ defaultText ++ LF ++
       "   */" ++ fieldDeclaration c fieldType /\
     (orEmpty (column_comment c) = "" -> commentLine = "") /\
     (forall text, column_comment c = Some text -> text <> "" ->
                   commentLine = LF ++ "   * " ++ text) /\
     (character_maximum_length c = None -> qualifier = "") /\
     (forall n, character_maximum_length c = Some n -> n <> 0%N ->
                qualifier = "(" ++ showNumber n ++ ")") /\
     (character_maximum_length c = Some 0%N -> qualifier = "") /\
     (column_default c = None -> defaultText = "null") /\
     (forall v, column_default c = Some v -> defaultText = v)).
Proof.
  exists (columnCommentLine c), (maxChars c),
    (showNullable (column_default c)), (getTsType c ++ nullable c).
  split; [|repeat split].
  - rewrite column_definition_parts. unfold documentationBlock.
    simpl. repeat (rewrite ?append_assoc; simpl). reflexivity.
  - intros H. unfold columnCommentLine. now rewrite H.
  - intros text H Hne. unfold columnCommentLine. rewrite H. simpl.
    destruct (String.eqb_spec text ""); [contradiction | reflexivity].
  - intros H. unfold maxChars. now rewrite H.
  - intros n H Hne. unfold maxChars. rewrite H.
    destruct (N.eqb_spec n 0); [contradiction | reflexivity].
  - intros H. unfold maxChars. now rewrite H.
  - intros H. now rewrite H.
  - intros v H. now rewrite H.
Qed.


End ColumnRenderer.

Lemma nullability_follows_flag_witness :
  _generateColumnDefinition Utils.getTsType column_bio =
  documentationBlock column_bio ++
  fieldDeclaration column_bio (Utils.getTsType column_bio ++ " | null") /\
  _generateColumnDefinition Utils.getTsType column_id =
  documentationBlock column_id ++
  fieldDeclaration column_id (Utils.getTsType column_id).
Proof.
  split.
  - apply (proj1 (nullability_follows_flag Utils.getTsType column_bio)).
    reflexivity.
  - apply (proj1 (proj2 (nullability_follows_flag Utils.getTsType column_id))).
    reflexivity.
Defined.


Lemma documentation_block_contents_witness :
  exists commentLine qualifier defaultText fieldType,
    _generateColumnDefinition Utils.getTsType column_bio =
      LF ++ "  /**" ++ commentLine ++ LF ++
      "   * Type: varchar" ++ qualifier ++ LF ++
      "   * Default value: " ++ defaultText ++ LF ++
      "   */" ++ fieldDeclaration column_bio fieldType /\
    commentLine = LF ++ "   * User biography" /\
    qualifier = "(255)" /\
    defaultText = "null".
Proof.
  destruct (documentation_block_contents Utils.getTsType column_bio)
    as (cl & q & d & ft & E & _ & Hc & _ & Hq & _ & Hd & _).
  exists cl, q, d, ft. repeat split.
  - exact E.
  - apply (Hc "User biography"); [reflexivity | discriminate].
  - apply (Hq 255%N); [reflexivity | discriminate].
  - apply Hd. reflexivity.
Defined.

(* ===================================================================== *)
(** * The model emitter *)
(* ===================================================================== *)

Lemma strictEq_iff (a b : option string) : strictEq a b = true <-> a = b.
Proof.
  destruct a as [x|], b as [y|]; simpl;
    try (split; [discriminate | discriminate]); try tauto.
  rewrite String.eqb_eq. split; [now intros -> | now intros [= ->]].
Qed.

Section ModelEmitter.

Variable getTsType : MySqlColumn -> string.

Lemma columnListAll_fields (columns : list MySqlColumn) :
  map snd (columnListAll getTsType columns) =
  map (_generateColumnDefinition getTsType) columns.
Proof. unfold columnListAll. rewrite map_map. reflexivity. Qed.

Lemma emittedColumns_id (columns : list MySqlColumn) :
  emittedColumns getTsType columns = columns.
Proof.
  unfold emittedColumns, columnListAll. rewrite map_map. simpl.
  apply map_id.
Qed.

Lemma allColumnsWritable_true (columns : list MySqlColumn) :
  allColumnsWritable getTsType columns = true.
Proof.
  unfold allColumnsWritable, columnListWritable.
  rewrite length_map. apply Nat.eqb_refl.
Qed.

Lemma table_models_unified (table : MySqlTable) (columns : list MySqlColumn) :
  _generateTableModels getTsType table columns =
  unifiedModel (orEmpty (table_name table)) (tableCommentLine table)
    (join LF (map (_generateColumnDefinition getTsType) columns)).
Proof.
  unfold _generateTableModels. rewrite allColumnsWritable_true.
  now rewrite columnListAll_fields.
Qed.

Lemma join_concat (sep : string) (parts : list string) :
  join sep parts = String.concat sep parts.
Proof.
  induction parts as [|p rest IH]; [reflexivity|].
  destruct rest as [|q rest]; [reflexivity|].
  change (p ++ sep ++ join sep (q :: rest) =
          p ++ sep ++ String.concat sep (q :: rest)).
  now rewrite IH.
Qed.

Lemma fields_text (columns : list MySqlColumn) :
  map (_generateColumnDefinition getTsType) columns =
  map (fun c =>
         documentationBlock c ++
         fieldDeclaration c (getTsType c ++ nullable c))
      columns.
Proof. apply map_ext. intros c. apply column_definition_parts. Qed.

(** The text of a table block, written out. *)
Lemma table_models_text (table : MySqlTable) (columns : list MySqlColumn) :
  _generateTableModels getTsType table columns =
  "
/**
 * Model for read & write operations on table "
  ++ match table_name table with Some n => n | None => "" end
  ++ match table_comment table with
     | Some text => if text =? "" then "" else "
 * " ++ text
     | None => ""
     end ++ "
 */
export interface "
  ++ match table_name table with Some n => n | None => "" end
  ++ "DtoWritable {
" ++ String.concat "
"   (map (fun c =>
            documentationBlock c ++
            fieldDeclaration c (getTsType c ++ nullable c))
         columns) ++ "
}
export type "
  ++ match table_name table with Some n => n | None => "" end
  ++ "Dto = "
  ++ match table_name table with Some n => n | None => "" end
  ++ "DtoWritable;".
Proof.
  rewrite table_models_unified, join_concat, fields_text.
  unfold unifiedModel, tableCommentLine, orEmpty, LF.
  destruct (table_name table) as [n|], (table_comment table) as [text|];
    simpl; try destruct (text =? ""); reflexivity.
Qed.

(** C4: the writable list is the list of all fields, so the test
    [allColumnsWritable] always succeeds and the text is that of the first
    template: one interface [<table>DtoWritable] holding every field,
    followed by the alias [<table>Dto = <table>DtoWritable]. It is never
    the text of the second template, with its interface
    [<table>Dto extends <table>DtoWritable]. *)
Theorem writable_subset_is_every_column
  (table : MySqlTable) (columns : list MySqlColumn) :
  let tableName := match table_name table with Some n => n | None => "" end in
  let comment :=
    match table_comment table with
    | Some text => if text =? "" then "" else "
 * " ++ text
    | None => ""
    end in
  let fields :=
    map (fun c =>
           documentationBlock c ++
           fieldDeclaration c (getTsType c ++ nullable c))
        columns in
  map snd (columnListAll getTsType columns) = fields /\
  columnListWritable getTsType columns = fields /\
  allColumnsWritable getTsType columns = true /\
  _generateTableModels getTsType table columns =
  "
/**
 * Model for read & write operations on table " ++ tableName ++ comment ++ "
 */
export interface " ++ tableName ++ "DtoWritable {
" ++ String.concat "
" fields ++ "
}
export type " ++ tableName ++ "Dto = " ++ tableName ++ "DtoWritable;" /\
  (forall toWrite readOnly,
     _generateTableModels getTsType table columns <>
  "
/**
 * Model for write operations on table " ++ tableName ++ comment ++ "
 */
export interface " ++ tableName ++ "DtoWritable {
" ++ toWrite ++ "
}
/**
 * Model for read operations on table " ++ tableName ++ "
 */
export interface " ++ tableName ++ "Dto extends " ++ tableName
     ++ "DtoWritable {
" ++ readOnly ++ "
}").
Proof.
  cbv zeta. split; [|split; [|split; [|split]]].
  - rewrite columnListAll_fields. apply fields_text.
  - unfold columnListWritable. rewrite columnListAll_fields.
    apply fields_text.
  - apply allColumnsWritable_true.
  - apply table_models_text.
  - intros toWrite readOnly. rewrite table_models_text.
    simpl. discriminate.
Qed.

End ModelEmitter.

(** The rows of a table created with the columns [id], [bio], as the
    query [sqlSelectColumns] answers them ([ORDER BY table_name,
    column_name]): [bio], of ordinal position 2, is rendered before [id],
    of ordinal position 1. *)
Lemma fields_in_row_order_not_ordinal_order :
  let columns := columnsOfTable table_users [column_bio; column_id] in
  map ordinal_position (emittedColumns Utils.getTsType columns) = [2; 1]%N /\
  ~ ascending (map ordinal_position (emittedColumns Utils.getTsType columns)) /\
  _generateTableModels Utils.getTsType table_users columns =
"
/**
 * Model for read & write operations on table users
 */
export interface usersDtoWritable {

  /**
   * User biography
   * Type: varchar(255)
   * Default value: null
   */
  bio: string | null;

  /**
   * Type: bigint
   * Default value: null
   */
  id: number;
}
export type usersDto = usersDtoWritable;".
Proof.
  split; [reflexivity | split; [|reflexivity]].
  intros H. vm_compute in H. inversion H as [|x l _ Hhd]; subst.
  inversion Hhd as [|y l' Hle]; subst. vm_compute in Hle. now apply Hle.
Qed.

(* ===================================================================== *)
(** * The generator *)
(* ===================================================================== *)

Lemma survivingNames_In (rows : list MySqlSchema) (n : string) :
  In n (survivingNames rows) <->
  n <> "" /\ exists r, In r rows /\ schema_name r = Some n.
Proof.
  induction rows as [|r rows IH]; simpl.
  - split; [tauto | intros (_ & r & [] & _)].
  - destruct (schema_name r) as [name|] eqn:E.
    + destruct (String.eqb_spec name "") as [-> | Hne].
      * rewrite IH. split.
        -- intros (Hn & r' & Hin & Hr'). split; [assumption|].
           exists r'. tauto.
        -- intros (Hn & r' & [<- | Hin] & Hr').
           ++ congruence.
           ++ split; [assumption|]. now exists r'.
      * simpl. rewrite IH. split.
        -- intros [<- | (Hn & r' & Hin & Hr')].
           ++ split; [assumption|]. exists r. tauto.
           ++ split; [assumption|]. exists r'. tauto.
        -- intros (Hn & r' & [<- | Hin] & Hr').
           ++ left. congruence.
           ++ right. split; [assumption|]. now exists r'.
    + rewrite IH. split.
      * intros (Hn & r' & Hin & Hr'). split; [assumption|]. exists r'. tauto.
      * intros (Hn & r' & [<- | Hin] & Hr').
        -- congruence.
        -- split; [assumption|]. now exists r'.
Qed.

(** Skipping a row without a name leaves the list of names as it is. *)
Lemma survivingNames_skip (pre post : list MySqlSchema) (r : MySqlSchema) :
  truthy (schema_name r) = false ->
  survivingNames (pre ++ r :: post)%list = survivingNames (pre ++ post)%list.
Proof.
  intros Hr. induction pre as [|x pre IH]; simpl.
  - unfold truthy in Hr. destruct (schema_name r) as [name|]; [|reflexivity].
    destruct (name =? ""); [reflexivity | discriminate].
  - rewrite IH. reflexivity.
Qed.

Section GeneratorProperties.

Variable getTsType : MySqlColumn -> string.

Lemma generateSchema_resolved (svc : MySqlInfoService) (name : string)
  (tableRows : list MySqlTable) (columnRows : list MySqlColumn) :
  tables svc name = Resolved tableRows ->
  columns svc name = Resolved columnRows ->
  _generateSchema getTsType svc name =
  Resolved
    {| schemaName := name;
       content :=
         schemaContent (join LF (tableLoop getTsType tableRows columnRows [])) |}.
Proof. intros Ht Hc. unfold _generateSchema. now rewrite Ht, Hc. Qed.

Lemma generateSchema_name (svc : MySqlInfoService) (name : string)
  (o : GenerateSchemaOutput) :
  _generateSchema getTsType svc name = Resolved o -> schemaName o = name.
Proof.
  unfold _generateSchema.
  destruct (tables svc name); simpl; [|discriminate].
  destruct (columns svc name); simpl; [|discriminate].
  now intros [= <-].
Qed.

Lemma generateSchema_ext (svc svc' : MySqlInfoService) (name : string) :
  tables svc' name = tables svc name ->
  columns svc' name = columns svc name ->
  _generateSchema getTsType svc' name = _generateSchema getTsType svc name.
Proof. intros Ht Hc. unfold _generateSchema. now rewrite Ht, Hc. Qed.

(** What the loop over the schema rows resolves with: the outputs so far,
    then the output of each surviving name, in order. *)
Lemma schemaLoop_resolved (svc : MySqlInfoService) (rows : list MySqlSchema) :
  forall acc out,
    schemaLoop getTsType svc rows acc = Resolved out <->
    exists outs,
      out = (acc ++ outs)%list /\
      Forall2 (fun n o => _generateSchema getTsType svc n = Resolved o)
              (survivingNames rows) outs.
Proof.
  induction rows as [|r rows IH]; intros acc out; simpl.
  - split.
    + intros [= <-]. exists []. split; [now rewrite app_nil_r | constructor].
    + intros (outs & -> & HF). inversion HF. now rewrite app_nil_r.
  - destruct (schema_name r) as [name|]; [|apply IH].
    destruct (name =? ""); [apply IH|].
    destruct (_generateSchema getTsType svc name) as [o|err] eqn:E; simpl.
    + rewrite IH. split.
      * intros (outs & -> & HF). exists (o :: outs).
        split; [now rewrite <- app_assoc | now constructor].
      * intros (outs & -> & HF).
        inversion HF as [|n o' ns os Ho HF']; subst.
        assert (o' = o) by congruence. subst o'.
        exists os. split; [now rewrite <- app_assoc | assumption].
    + split; [discriminate|].
      intros (outs & _ & HF). inversion HF; subst. congruence.
Qed.

(** The loop resolves as soon as the queries of every surviving schema
    do. *)
Lemma schemaLoop_total (svc : MySqlInfoService) (rows : list MySqlSchema) :
  (forall n, In n (survivingNames rows) ->
     exists tableRows columnRows,
       tables svc n = Resolved tableRows /\
       columns svc n = Resolved columnRows) ->
  forall acc, exists out, schemaLoop getTsType svc rows acc = Resolved out.
Proof.
  induction rows as [|r rows IH]; intros Hq acc; simpl in *.
  - now exists acc.
  - destruct (schema_name r) as [name|]; [|now apply IH].
    destruct (name =? ""); [now apply IH|].
    destruct (Hq name (or_introl eq_refl)) as (ts & cs & Ht & Hc).
    rewrite (generateSchema_resolved _ _ Ht Hc). simpl.
    apply IH. intros n Hn. apply Hq. now right.
Qed.

Lemma schemaLoop_ext (svc svc' : MySqlInfoService) (rows : list MySqlSchema) :
  (forall n, tables svc' n = tables svc n) ->
  (forall n, columns svc' n = columns svc n) ->
  forall acc,
    schemaLoop getTsType svc' rows acc = schemaLoop getTsType svc rows acc.
Proof.
  intros Ht Hc. induction rows as [|r rows IH]; intros acc; simpl.
  - reflexivity.
  - destruct (schema_name r) as [name|]; [|apply IH].
    destruct (name =? ""); [apply IH|].
    rewrite (generateSchema_ext svc svc' name (Ht name) (Hc name)).
    destruct (_generateSchema getTsType svc name); simpl; [apply IH | reflexivity].
Qed.

Lemma schemaLoop_skip (svc : MySqlInfoService)
  (pre post : list MySqlSchema) (r : MySqlSchema) :
  truthy (schema_name r) = false ->
  forall acc,
    schemaLoop getTsType svc (pre ++ r :: post)%list acc =
    schemaLoop getTsType svc (pre ++ post)%list acc.
Proof.
  intros Hr. induction pre as [|x pre IH]; intros acc; simpl.
  - unfold truthy in Hr. destruct (schema_name r) as [name|]; [|reflexivity].
    destruct (name =? ""); [reflexivity | discriminate].
  - destruct (schema_name x) as [name|]; [|apply IH].
    destruct (name =? ""); [apply IH|].
    destruct (_generateSchema getTsType svc name); simpl; [apply IH | reflexivity].
Qed.

Lemma tableLoop_skip (columnRows : list MySqlColumn)
  (pre post : list MySqlTable) (t : MySqlTable) :
  truthy (table_name t) = false ->
  forall modelList,
    tableLoop getTsType (pre ++ t :: post)%list columnRows modelList =
    tableLoop getTsType (pre ++ post)%list columnRows modelList.
Proof.
  intros Ht. induction pre as [|x pre IH]; intros modelList; simpl.
  - now rewrite Ht.
  - destruct (negb (truthy (table_name x))); apply IH.
Qed.

Lemma generate_names (svc : MySqlInfoService) (rows : list MySqlSchema)
  (out : list GenerateSchemaOutput) :
  schemata svc = Resolved rows ->
  generate getTsType svc = Resolved out ->
  exists outs,
    out = _generateCommonTypes :: outs /\
    Forall2 (fun n o => _generateSchema getTsType svc n = Resolved o)
            (survivingNames rows) outs /\
    map schemaName outs = survivingNames rows.
Proof.
  intros Hs Hg. unfold generate in Hg. rewrite Hs in Hg. simpl in Hg.
  apply schemaLoop_resolved in Hg. destruct Hg as (outs & -> & HF).
  exists outs. repeat split; trivial.
  induction HF as [|n o ns os Ho HF IH]; simpl; [reflexivity|].
  now rewrite IH, (generateSchema_name _ _ Ho).
Qed.

(** C7: when the schema list resolves, a result of [generate] is the
    output [_types] of [_generateCommonTypes] followed by one output per
    schema row with a name, in the order of the rows, each being what
    [_generateSchema] resolves with for that name and carrying that name;
    and [generate] does resolve whenever the table and column queries of
    these schemas resolve. *)
Theorem generate_output_sequence
  (svc : MySqlInfoService) (rows : list MySqlSchema) :
  schemata svc = Resolved rows ->
  schemaName _generateCommonTypes = "_types" /\
  (forall out, generate getTsType svc = Resolved out ->
     exists outs,
       out = _generateCommonTypes :: outs /\
       List.length outs = List.length (survivingNames rows) /\
       map schemaName outs = survivingNames rows /\
       Forall2 (fun n o => _generateSchema getTsType svc n = Resolved o)
               (survivingNames rows) outs) /\
  ((forall n, In n (survivingNames rows) ->
      exists tableRows columnRows,
        tables svc n = Resolved tableRows /\
        columns svc n = Resolved columnRows) ->
   exists out, generate getTsType svc = Resolved out).
Proof.
  intros Hs. split; [reflexivity | split].
  - intros out Hg.
    destruct (generate_names svc Hs Hg) as (outs & -> & HF & Hn).
    exists outs. repeat split; trivial.
    rewrite <- Hn. now rewrite length_map.
  - intros Hq. unfold generate. rewrite Hs. simpl.
    now apply schemaLoop_total.
Qed.

(** C6 (amended): [generate] has no filter of its own; the names of its
    schema outputs are those of the rows of the schema list. A system
    schema is among the outputs exactly when a row of the list names it,
    and none is when the list, as the query [sqlSelectSchemata] promises,
    names none. *)
Theorem system_schema_output_iff_listed
  (svc : MySqlInfoService) (rows : list MySqlSchema)
  (out : list GenerateSchemaOutput) :
  schemata svc = Resolved rows ->
  generate getTsType svc = Resolved out ->
  (forall n, In n systemSchemas ->
     (In n (map schemaName out) <-> exists r, In r rows /\ schema_name r = Some n)) /\
  ((forall r n, In r rows -> schema_name r = Some n -> ~ In n systemSchemas) ->
   forall o, In o out -> ~ In (schemaName o) systemSchemas).
Proof.
  intros Hs Hg.
  destruct (generate_names svc Hs Hg) as (outs & -> & _ & Hn).
  assert (Hsys : forall n, In n systemSchemas -> n <> "" /\ n <> "_types").
  { intros n Hin. simpl in Hin.
    repeat (destruct Hin as [<- | Hin]; [split; discriminate|]).
    destruct Hin. }
  assert (Hiff : forall n, In n systemSchemas ->
    (In n (map schemaName (_generateCommonTypes :: outs)) <->
     exists r, In r rows /\ schema_name r = Some n)).
  { intros n Hin. destruct (Hsys n Hin) as [Hne Hnt].
    simpl. rewrite Hn, survivingNames_In. split.
    - intros [E | [_ H]]; [now symmetry in E | assumption].
    - intros H. right. tauto. }
  split; [exact Hiff|].
  intros Hnone o Ho Hin.
  apply (in_map schemaName) in Ho.
  apply (Hiff _ Hin) in Ho. destruct Ho as (r & Hr & Hname).
  exact (Hnone r _ Hr Hname Hin).
Qed.

(** C9: a schema row whose name is [null] or empty, and a table row whose
    name is [null] or empty, are passed over: the run answers (resolves or
    rejects) exactly as the run in which the row is not listed. *)
Theorem rows_without_name_are_skipped :
  (forall (svc svc' : MySqlInfoService) pre r post,
     truthy (schema_name r) = false ->
     schemata svc = Resolved (pre ++ r :: post)%list ->
     schemata svc' = Resolved (pre ++ post)%list ->
     (forall n, tables svc' n = tables svc n) ->
     (forall n, columns svc' n = columns svc n) ->
     generate getTsType svc = generate getTsType svc') /\
  (forall (svc svc' : MySqlInfoService) name pre t post,
     truthy (table_name t) = false ->
     tables svc name = Resolved (pre ++ t :: post)%list ->
     tables svc' name = Resolved (pre ++ post)%list ->
     columns svc' name = columns svc name ->
     _generateSchema getTsType svc name =
     _generateSchema getTsType svc' name).
Proof.
  split.
  - intros svc svc' pre r post Hr Hs Hs' Ht Hc.
    unfold generate. rewrite Hs, Hs'. simpl.
    rewrite (schemaLoop_skip svc pre post r Hr).
    symmetry. now apply schemaLoop_ext.
  - intros svc svc' name pre t post Ht Hs Hs' Hc.
    unfold _generateSchema. rewrite Hs, Hs', Hc. simpl.
    destruct (columns svc name); simpl; [|reflexivity].
    now rewrite (tableLoop_skip _ pre post t Ht).
Qed.

End GeneratorProperties.

(** ** Runs on concrete catalogs *)

(** Were the schema list to name [mysql], [generate] would emit it. *)
Lemma generate_emits_listed_system_schema :
  exists out,
    generate Utils.getTsType
      (catalogOf [ {| schema_name := Some "mysql" |} ] []) = Resolved out /\
    map schemaName out = ["_types"; "mysql"] /\
    In "mysql" systemSchemas.
Proof.
  eexists. split; [reflexivity | split; [reflexivity | simpl; tauto]].
Qed.

Lemma system_schema_output_iff_listed_witness :
  ~ In (schemaName {| schemaName := "shop"; content := schemaContent "" |})
       systemSchemas.
Proof.
  refine (proj2 (system_schema_output_iff_listed Utils.getTsType
    (catalogOf [ {| schema_name := Some "shop" |} ] [])
    (rows := [ {| schema_name := Some "shop" |} ]) eq_refl eq_refl) _ _ _).
  - intros r n [<- | []] [= <-]. simpl.
    intros H. repeat (destruct H as [H | H]; [discriminate|]). exact H.
  - simpl. right. left. reflexivity.
Defined.

Lemma generate_output_sequence_witness :
  exists out,
    generate Utils.getTsType
      (catalogOf [ {| schema_name := Some "shop" |};
                   {| schema_name := Some "blog" |} ] [table_users])
    = Resolved out.
Proof.
  apply (proj2 (proj2 (generate_output_sequence Utils.getTsType
    (catalogOf [ {| schema_name := Some "shop" |};
                 {| schema_name := Some "blog" |} ] [table_users])
    eq_refl))).
  intros n _. now exists [table_users], [column_bio; column_id].
Defined.

Lemma rows_without_name_are_skipped_witness :
  generate Utils.getTsType
    (catalogOf [ {| schema_name := Some "shop" |};
                 {| schema_name := None |};
                 {| schema_name := Some "blog" |} ] [table_users]) =
  generate Utils.getTsType
    (catalogOf [ {| schema_name := Some "shop" |};
                 {| schema_name := Some "blog" |} ] [table_users]) /\
  _generateSchema Utils.getTsType
    (catalogOf [] [ {| table_comment := None; table_name := Some "" |};
                    table_users ]) "shop" =
  _generateSchema Utils.getTsType (catalogOf [] [table_users]) "shop".
Proof.
  split.
  - apply (proj1 (rows_without_name_are_skipped Utils.getTsType)
             (catalogOf _ _) (catalogOf _ _)
             [ {| schema_name := Some "shop" |} ] {| schema_name := None |}
             [ {| schema_name := Some "blog" |} ]); reflexivity.
  - apply (proj2 (rows_without_name_are_skipped Utils.getTsType)
             (catalogOf _ _) (catalogOf _ _) "shop"
             [] {| table_comment := None; table_name := Some "" |}
             [table_users]); reflexivity.
Defined.

(* ===================================================================== *)
(** * More on the rule table *)
(* ===================================================================== *)

Lemma isPrefixOf_split (g : RegExp) : forall s,
  isPrefixOf g s = true -> exists b, s = (g ++ b)%list.
Proof.
  induction g as [|x g IH]; intros s H; simpl in *.
  - now exists s.
  - destruct s as [|y s]; [discriminate|].
    destruct (Term_eq_dec x y) as [<- | _]; [|discriminate].
    destruct (IH _ H) as (b & ->). now exists b.
Qed.

Lemma isPartOf_split (g : RegExp) : forall s,
  isPartOf g s = true -> exists a b, s = (a ++ g ++ b)%list.
Proof.
  induction s as [|y s IH]; simpl; rewrite orb_true_iff.
  - intros [H | H]; [|discriminate].
    destruct (isPrefixOf_split _ _ H) as (b & E). now exists [], b.
  - intros [H | H].
    + destruct (isPrefixOf_split _ _ H) as (b & E). now exists [], b.
    + destruct (IH H) as (a & b & ->). now exists (y :: a), b.
Qed.

Lemma isPartOf_alsoMatches (g s : RegExp) :
  isPartOf g s = true -> alsoMatches g s.
Proof.
  intros H. destruct (isPartOf_split _ _ H) as (a & b & ->).
  apply alsoMatches_infix.
Qed.

(** Every pair of [shadowedRules] names a rule and an earlier rule of the
    same category whose pattern is a contiguous part of the rule's. *)
Lemma shadowedRules_sound (i j : nat) :
  In (i, j) shadowedRules ->
  exists ri rj,
    nth_error MySqlColumnTypePatterns i = Some ri /\
    nth_error MySqlColumnTypePatterns j = Some rj /\
    j < i /\ ts ri = ts rj /\ isPartOf (re rj) (re ri) = true.
Proof.
  intros H. simpl in H.
  repeat (destruct H as [[= <- <-] | H];
          [ eexists; eexists;
            split; [reflexivity|]; split; [reflexivity|];
            split; [lia|]; split; [reflexivity | vm_compute; reflexivity] |]).
  destruct H.
Qed.

(** X1: nineteen rules of the table come after a rule of the same category
    that matches every description they match: under a scan in list order
    they never decide the result. *)
Theorem shadowed_rules_have_earlier_cover (i j : nat) :
  In (i, j) shadowedRules ->
  exists ri rj,
    nth_error MySqlColumnTypePatterns i = Some ri /\
    nth_error MySqlColumnTypePatterns j = Some rj /\
    j < i /\ ts ri = ts rj /\ alsoMatches (re rj) (re ri).
Proof.
  intros H. destruct (@shadowedRules_sound i j H)
    as (ri & rj & Hi & Hj & Hlt & Hts & Hpart).
  exists ri, rj. repeat split; trivial. now apply isPartOf_alsoMatches.
Qed.

Lemma shadowed_rules_have_earlier_cover_witness :
  exists ri rj,
    nth_error MySqlColumnTypePatterns 34 = Some ri /\
    nth_error MySqlColumnTypePatterns 4 = Some rj /\
    4 < 34 /\ ts ri = ts rj /\ alsoMatches (re rj) (re ri).
Proof.
  apply shadowed_rules_have_earlier_cover. simpl. tauto.
Defined.

Lemma shadowed_never_first (i j : nat) (d : string) :
  In (i, j) shadowedRules -> ~ firstAt i d.
Proof.
  intros H (rule & Hn & Ht & Hfirst).
  destruct (@shadowedRules_sound i j H)
    as (ri & rj & Hi & Hj & Hlt & _ & Hpart).
  assert (ri = rule) by congruence. subst ri.
  apply isPartOf_alsoMatches in Hpart.
  specialize (Hfirst j rj Hlt Hj). rewrite (Hpart d Ht) in Hfirst.
  discriminate.
Qed.

Lemma live_or_shadowed (i : nat) (rule : TypePattern) :
  nth_error MySqlColumnTypePatterns i = Some rule ->
  In i liveRules \/ exists j, In (i, j) shadowedRules.
Proof.
  intros H.
  assert (Hlt : i < 35).
  { change 35 with (List.length MySqlColumnTypePatterns).
    apply nth_error_Some. rewrite H. discriminate. }
  clear H.
  do 35 (destruct i as [|i];
         [ first [ left; simpl; tauto
                 | right; eexists; simpl; tauto ] |]).
  lia.
Qed.

Lemma firstAt_decide (i : nat) (d : string) (rule : TypePattern) :
  nth_error MySqlColumnTypePatterns i = Some rule ->
  test (re rule) d = true ->
  forallb (fun q => negb (test (re q) d)) (firstn i MySqlColumnTypePatterns)
    = true ->
  firstAt i d.
Proof.
  intros Hn Ht Hall. exists rule. repeat split; trivial.
  intros j q Hj Hq. rewrite forallb_forall in Hall.
  apply negb_true_iff, Hall.
  apply nth_error_In with (n := j). now rewrite nth_error_firstn, (proj2 (Nat.ltb_lt j i) Hj).
Qed.

(** X2: exactly sixteen of the thirty-five rules can be the first rule of the
    table whose pattern tests true on a description. *)
Theorem first_matching_rule_is_live (i : nat) :
  (exists d, firstAt i d) <-> In i liveRules.
Proof.
  split.
  - intros (d & Hd). destruct Hd as (rule & Hn & Ht & Hfirst).
    destruct (@live_or_shadowed i rule Hn) as [H | (j & H)]; [assumption|].
    exfalso. apply (@shadowed_never_first i j d H). now exists rule.
  - intros H. exists (liveSample i). simpl in H.
    repeat (destruct H as [<- | H];
            [ eapply firstAt_decide;
              [reflexivity | vm_compute; reflexivity | vm_compute; reflexivity] |]).
    destruct H.
Qed.

Lemma accepts_canonicalize (a : CharSet) (c : ascii) :
  accepts a (canonicalize c) = accepts a c.
Proof.
  assert (Hidem : canonicalize (canonicalize c) = canonicalize c).
  { destruct c as [[] [] [] [] [] [] [] []]; vm_compute; reflexivity. }
  destruct a as [x| |]; simpl.
  - now rewrite Hidem.
  - destruct c as [[] [] [] [] [] [] [] []]; vm_compute; reflexivity.
  - destruct c as [[] [] [] [] [] [] [] []]; vm_compute; reflexivity.
Qed.

Lemma matchMany_canonicalizeAll (a : CharSet) (k : string -> bool) :
  (forall s, k (canonicalizeAll s) = k s) ->
  forall s, matchMany a k (canonicalizeAll s) = matchMany a k s.
Proof.
  intros Hk. induction s as [|c s IH]; simpl; [reflexivity|].
  now rewrite accepts_canonicalize, IH, Hk.
Qed.

Lemma matchHere_canonicalizeAll (p : RegExp) : forall s,
  matchHere p (canonicalizeAll s) = matchHere p s.
Proof.
  induction p as [|[a|a] p IH]; intros s; simpl.
  - reflexivity.
  - destruct s as [|c s]; simpl; [reflexivity|].
    now rewrite accepts_canonicalize, IH.
  - now apply matchMany_canonicalizeAll.
Qed.

(** X3: under the flag [i] a pattern gives the same answer on two
    descriptions that differ only in the case of their letters. *)
Theorem test_ignores_case (p : RegExp) (d d' : string) :
  canonicalizeAll d = canonicalizeAll d' -> test p d = test p d'.
Proof.
  assert (H : forall s, test p (canonicalizeAll s) = test p s).
  { induction s as [|c s IH]; simpl; [reflexivity|].
    rewrite IH. f_equal.
    exact (matchHere_canonicalizeAll p (String c s)). }
  intros E. now rewrite <- (H d), <- (H d'), E.
Qed.

Lemma test_ignores_case_witness :
  test (rx "varchar\(\d+\)") "VarChar(64)" =
  test (rx "varchar\(\d+\)") "varchar(64)".
Proof. apply test_ignores_case. reflexivity. Defined.

(** X4: the patterns of the table carry no anchor: a pattern that tests true
    on a description tests true on every text that contains it. *)
Theorem test_is_unanchored (p : RegExp) (pre d suf : string) :
  test p d = true -> test p (pre ++ d ++ suf) = true.
Proof.
  rewrite !test_iff. intros (a & m & b & -> & HM).
  exists (pre ++ a), m, (b ++ suf). split; [|assumption].
  now rewrite !append_assoc.
Qed.

Lemma test_is_unanchored_witness :
  test (rx "int") ("po" ++ "int" ++ "") = true.
Proof. apply test_is_unanchored. reflexivity. Defined.

(* ===================================================================== *)
(** * More on the generator *)
(* ===================================================================== *)

Lemma filter_filter_implied {A : Type} (P Q : A -> bool) (l : list A) :
  (forall x, In x l -> Q x = true -> P x = true) ->
  filter Q (filter P l) = filter Q l.
Proof.
  induction l as [|x l IH]; intros H; simpl; [reflexivity|].
  destruct (P x) eqn:HP; simpl.
  - destruct (Q x); rewrite IH; trivial; intros y Hy; apply H; now right.
  - destruct (Q x) eqn:HQ.
    + rewrite (H x (or_introl eq_refl) HQ) in HP. discriminate.
    + apply IH. intros y Hy. apply H. now right.
Qed.

Section SchemaEmitter.

Variable getTsType : MySqlColumn -> string.

(** The block of a table row within a schema. *)
Let block (columnRows : list MySqlColumn) (t : MySqlTable) : string :=
  _generateTableModels getTsType t (columnsOfTable t columnRows).

Lemma tableLoop_blocks (columnRows : list MySqlColumn)
  (tableRows : list MySqlTable) : forall modelList,
  tableLoop getTsType tableRows columnRows modelList =
  (modelList ++ map (block columnRows) (namedTables tableRows))%list.
Proof.
  induction tableRows as [|t rows IH]; intros modelList; simpl.
  - now rewrite app_nil_r.
  - destruct (truthy (table_name t)); simpl.
    + rewrite IH, <- app_assoc. reflexivity.
    + apply IH.
Qed.

Lemma columnsOfTable_named (t : MySqlTable) (n : string)
  (columnRows : list MySqlColumn) :
  table_name t = Some n ->
  columnsOfTable t columnRows =
  filter (fun c =>
            match column_table_name c with
            | Some m => m =? n
            | None => false
            end)
         columnRows.
Proof.
  intros H. unfold columnsOfTable. apply filter_ext. intros c. rewrite H.
  destruct (column_table_name c); reflexivity.
Qed.

Lemma blocks_flat_map (columnRows : list MySqlColumn)
  (tableRows : list MySqlTable) :
  map (block columnRows) (namedTables tableRows) =
  flat_map
    (fun t =>
       match table_name t with
       | Some n =>
           if n =? "" then []
           else
             [ _generateTableModels getTsType t
                 (filter (fun c =>
                            match column_table_name c with
                            | Some m => m =? n
                            | None => false
                            end)
                         columnRows) ]
       | None => []
       end)
    tableRows.
Proof.
  induction tableRows as [|t rows IH]; simpl; [reflexivity|].
  destruct (table_name t) as [n|] eqn:E; simpl; [|exact IH].
  destruct (n =? ""); simpl; [exact IH|].
  rewrite IH. unfold block. now rewrite (columnsOfTable_named t columnRows E).
Qed.

(** The output of a schema, written out. *)
Lemma schema_output_text (name : string) (tableRows : list MySqlTable)
  (columnRows : list MySqlColumn) :
  {| schemaName := name;
     content :=
       schemaContent
         (join LF (tableLoop getTsType tableRows columnRows [])) |} =
  {| schemaName := name;
     content := "
import { JsonType } from './_types';
" ++ String.concat "
"      (flat_map
          (fun t =>
             match table_name t with
             | Some n =>
                 if n =? "" then []
                 else
                   [ _generateTableModels getTsType t
                       (filter (fun c =>
                                  match column_table_name c with
                                  | Some m => m =? n
                                  | None => false
                                  end)
                               columnRows) ]
             | None => []
             end)
          tableRows) ++ "
" |}.
Proof.
  rewrite tableLoop_blocks. simpl app.
  rewrite join_concat, blocks_flat_map. reflexivity.
Qed.

(** X5: when both queries of a schema resolve, [_generateSchema] resolves
    with the schema's name and, under the import line, the blocks of the
    table rows that have a non-empty name, one per row and in the order of
    the rows, joined by line feeds and followed by one; the block of a row
    is built from the column rows bearing its name, in their order. *)
Theorem generateSchema_content (svc : MySqlInfoService) (name : string)
  (tableRows : list MySqlTable) (columnRows : list MySqlColumn) :
  tables svc name = Resolved tableRows ->
  columns svc name = Resolved columnRows ->
  _generateSchema getTsType svc name =
  Resolved
    {| schemaName := name;
       content := "
import { JsonType } from './_types';
" ++ String.concat "
"        (flat_map
            (fun t =>
               match table_name t with
               | Some n =>
                   if n =? "" then []
                   else
                     [ _generateTableModels getTsType t
                         (filter (fun c =>
                                    match column_table_name c with
                                    | Some m => m =? n
                                    | None => false
                                    end)
                                 columnRows) ]
               | None => []
               end)
            tableRows) ++ "
" |}.
Proof.
  intros Ht Hc.
  rewrite (generateSchema_resolved getTsType svc name Ht Hc).
  now rewrite schema_output_text.
Qed.

(** C3 (amended): the block of a table holds one field per column row of
    the schema that bears the table's name, the i-th field being the
    rendering of the i-th such row in the order of the column query's
    answer (whose [ORDER BY] is by table name, then column name). The
    fields are therefore in ascending ordinal order exactly when these
    rows arrive in ascending ordinal order. *)
Theorem fields_follow_column_rows (svc : MySqlInfoService) (name : string)
  (tableRows : list MySqlTable) (columnRows : list MySqlColumn) :
  tables svc name = Resolved tableRows ->
  columns svc name = Resolved columnRows ->
  let rowsOf := fun n : string =>
    filter (fun c =>
              match column_table_name c with
              | Some m => m =? n
              | None => false
              end)
           columnRows in
  let field := fun c : MySqlColumn =>
    documentationBlock c ++ fieldDeclaration c (getTsType c ++ nullable c) in
  let tableBlock := fun (t : MySqlTable) (n : string) => "
/**
 * Model for read & write operations on table " ++ n
    ++ match table_comment t with
       | Some text => if text =? "" then "" else "
 * " ++ text
       | None => ""
       end ++ "
 */
export interface " ++ n ++ "DtoWritable {
" ++ String.concat "
" (map field (rowsOf n)) ++ "
}
export type " ++ n ++ "Dto = " ++ n ++ "DtoWritable;" in
  _generateSchema getTsType svc name =
  Resolved
    {| schemaName := name;
       content := "
import { JsonType } from './_types';
" ++ String.concat "
"        (flat_map
            (fun t =>
               match table_name t with
               | Some n => if n =? "" then [] else [tableBlock t n]
               | None => []
               end)
            tableRows) ++ "
" |} /\
  (forall t n, table_name t = Some n ->
     columnsOfTable t columnRows = rowsOf n /\
     emittedColumns getTsType (columnsOfTable t columnRows) = rowsOf n /\
     _generateTableModels getTsType t (columnsOfTable t columnRows) =
       tableBlock t n /\
     List.length (map field (rowsOf n)) = List.length (rowsOf n) /\
     (forall i c, nth_error (rowsOf n) i = Some c ->
        nth_error (map field (rowsOf n)) i = Some (field c)) /\
     (ascending
        (map ordinal_position
           (emittedColumns getTsType (columnsOfTable t columnRows))) <->
      ascending (map ordinal_position (rowsOf n)))).
Proof.
  intros Ht Hc rowsOf field tableBlock.
  assert (Hblock : forall t n, table_name t = Some n ->
            _generateTableModels getTsType t (rowsOf n) = tableBlock t n).
  { intros t n E. rewrite table_models_text, E. reflexivity. }
  split.
  - rewrite (generateSchema_resolved getTsType svc name Ht Hc).
    rewrite schema_output_text. do 5 f_equal.
    apply flat_map_ext. intros t.
    destruct (table_name t) as [n|] eqn:E; [|reflexivity].
    destruct (n =? ""); [reflexivity|].
    f_equal. now apply Hblock.
  - intros t n E.
    rewrite emittedColumns_id, (columnsOfTable_named t columnRows E).
    fold (rowsOf n).
    repeat split; trivial.
    + now apply Hblock.
    + apply length_map.
    + intros i c H. now apply map_nth_error.
Qed.

Lemma columnsOfTable_ofNamedTable (tableRows : list MySqlTable)
  (columnRows : list MySqlColumn) (t : MySqlTable) :
  In t (namedTables tableRows) ->
  columnsOfTable t (filter (ofNamedTable tableRows) columnRows) =
  columnsOfTable t columnRows.
Proof.
  intros Hin. unfold columnsOfTable. apply filter_filter_implied.
  intros c _ Hc. unfold ofNamedTable. apply existsb_exists.
  exists t. split; [exact Hin | exact Hc].
Qed.

(** X6: column rows that bear the name of no named table row (the columns of
    a view, which [sqlSelectColumns] returns and [sqlSelectTables] leaves
    out) change nothing: with or without them [_generateSchema] answers
    the same. *)
Theorem unlisted_table_columns_are_ignored
  (svc svc' : MySqlInfoService) (name : string)
  (tableRows : list MySqlTable) (columnRows : list MySqlColumn) :
  tables svc name = Resolved tableRows ->
  tables svc' name = Resolved tableRows ->
  columns svc name = Resolved columnRows ->
  columns svc' name = Resolved (filter (ofNamedTable tableRows) columnRows) ->
  _generateSchema getTsType svc' name = _generateSchema getTsType svc name.
Proof.
  intros Ht Ht' Hc Hc'. unfold _generateSchema.
  rewrite Ht, Ht', Hc, Hc'. simpl. rewrite !tableLoop_blocks. simpl.
  do 4 f_equal. apply map_ext_in. intros t Hin. unfold block.
  now rewrite columnsOfTable_ofNamedTable.
Qed.

(** [_generateSchema] rejects with the error of the table query, or,
    when that one resolves, with the error of the column query; in no
    other case. *)
Lemma generateSchema_rejected (svc : MySqlInfoService) (name err : string) :
  _generateSchema getTsType svc name = Rejected err <->
  tables svc name = Rejected err \/
  (exists tableRows, tables svc name = Resolved tableRows) /\
  columns svc name = Rejected err.
Proof.
  unfold _generateSchema.
  destruct (tables svc name) as [ts|e]; simpl.
  - destruct (columns svc name) as [cs|e]; simpl.
    + split; [discriminate|]. intros [H | [_ H]]; discriminate.
    + split.
      * intros [= ->]. right. split; [now exists ts | reflexivity].
      * intros [H | [_ H]]; [discriminate | now injection H as ->].
  - split.
    + intros [= ->]. now left.
    + intros [H | [[ts H] _]]; [now injection H as -> | discriminate].
Qed.

Lemma schemaLoop_rejected (svc : MySqlInfoService) (err : string)
  (rows : list MySqlSchema) : forall acc,
  schemaLoop getTsType svc rows acc = Rejected err <->
  exists pre n post,
    survivingNames rows = (pre ++ n :: post)%list /\
    (forall m, In m pre ->
       exists o, _generateSchema getTsType svc m = Resolved o) /\
    _generateSchema getTsType svc n = Rejected err.
Proof.
  induction rows as [|r rows IH]; intros acc; simpl.
  - split; [discriminate|].
    intros (pre & n & post & E & _). now destruct pre.
  - destruct (schema_name r) as [name|]; [|apply IH].
    destruct (name =? ""); [apply IH|].
    destruct (_generateSchema getTsType svc name) as [o|e] eqn:E; simpl.
    + rewrite IH. split.
      * intros (pre & n & post & Hs & Hpre & Hn).
        exists (name :: pre), n, post. repeat split; trivial.
        -- simpl. now rewrite Hs.
        -- intros m [<- | Hm]; [now exists o | now apply Hpre].
      * intros (pre & n & post & Hs & Hpre & Hn).
        destruct pre as [|x pre]; simpl in Hs; injection Hs as Hx Hs;
          [subst n | subst x].
        -- congruence.
        -- exists pre, n, post. repeat split; trivial.
           intros m Hm. apply Hpre. now right.
    + split.
      * intros [= ->]. exists [], name, (survivingNames rows).
        repeat split; trivial. intros m [].
      * intros (pre & n & post & Hs & Hpre & Hn).
        destruct pre as [|x pre]; simpl in Hs; injection Hs as Hx Hs;
          [subst n | subst x].
        -- congruence.
        -- destruct (Hpre name (or_introl eq_refl)) as (o & Ho). congruence.
Qed.

(** X7: [generate] rejects exactly when the schema list rejects, or when the
    queries of some named schema reject while those of every schema named
    before it resolve; the error is that of this first failing query, and
    nothing of the earlier schemas is returned. *)
Theorem generate_rejects_with_first_error
  (svc : MySqlInfoService) (err : string) :
  generate getTsType svc = Rejected err <->
  schemata svc = Rejected err \/
  exists rows pre n post,
    schemata svc = Resolved rows /\
    survivingNames rows = (pre ++ n :: post)%list /\
    (forall m, In m pre ->
       exists tableRows columnRows,
         tables svc m = Resolved tableRows /\
         columns svc m = Resolved columnRows) /\
    (tables svc n = Rejected err \/
     (exists tableRows, tables svc n = Resolved tableRows) /\
     columns svc n = Rejected err).
Proof.
  unfold generate. destruct (schemata svc) as [rows|e]; simpl.
  - rewrite schemaLoop_rejected. split.
    + intros (pre & n & post & Hs & Hpre & Hn). right.
      exists rows, pre, n, post. repeat split; trivial.
      * intros m Hm. destruct (Hpre m Hm) as (o & Ho).
        unfold _generateSchema in Ho.
        destruct (tables svc m) as [ts|]; simpl in Ho; [|discriminate].
        destruct (columns svc m) as [cs|]; simpl in Ho; [|discriminate].
        now exists ts, cs.
      * now apply generateSchema_rejected.
    + intros [H | (rows' & pre & n & post & [= <-] & Hs & Hpre & Hn)];
        [discriminate|].
      exists pre, n, post. repeat split; trivial.
      * intros m Hm. destruct (Hpre m Hm) as (ts & cs & Ht & Hc).
        eexists. eapply generateSchema_resolved; eassumption.
      * now apply generateSchema_rejected.
  - split.
    + intros [= ->]. now left.
    + intros [H | (rows & pre & n & post & H & _)];
        [now injection H as -> | discriminate].
Qed.

(** X9: the names of the outputs are pairwise distinct exactly when the named
    schema rows are pairwise distinct and none of them is called
    [_types], the name of the shared output. *)
Theorem output_names_distinct_iff (svc : MySqlInfoService)
  (rows : list MySqlSchema) (out : list GenerateSchemaOutput) :
  schemata svc = Resolved rows ->
  generate getTsType svc = Resolved out ->
  (NoDup (map schemaName out) <->
   NoDup (survivingNames rows) /\ ~ In "_types" (survivingNames rows)).
Proof.
  intros Hs Hg.
  destruct (generate_names getTsType svc Hs Hg) as (outs & -> & _ & Hn).
  simpl. rewrite Hn. split.
  - intros H. inversion H; subst. tauto.
  - intros [H1 H2]. now constructor.
Qed.

End SchemaEmitter.

Section GenerateResult.

Variable getTsType : MySqlColumn -> string.

(** The output of a schema whose queries answered [tableRows] and
    [columnRows]. *)
Let outputOf (name : string) (tableRows : list MySqlTable)
  (columnRows : list MySqlColumn) : GenerateSchemaOutput :=
  {| schemaName := name;
     content :=
       schemaContent
         (join LF
            (map (fun t =>
                    _generateTableModels getTsType t
                      (columnsOfTable t columnRows))
                 (namedTables tableRows))) |}.

Lemma schemaLoop_outputs (svc : MySqlInfoService)
  (tablesOf : string -> list MySqlTable)
  (columnsOf : string -> list MySqlColumn) (rows : list MySqlSchema) :
  (forall n, In n (survivingNames rows) ->
     tables svc n = Resolved (tablesOf n) /\
     columns svc n = Resolved (columnsOf n)) ->
  forall acc,
    schemaLoop getTsType svc rows acc =
    Resolved
      (acc ++ map (fun n => outputOf n (tablesOf n) (columnsOf n))
                  (survivingNames rows))%list.
Proof.
  induction rows as [|r rows IH]; intros Hq acc; simpl in *.
  - now rewrite app_nil_r.
  - destruct (schema_name r) as [name|]; [|now apply IH].
    destruct (name =? ""); [now apply IH|].
    destruct (Hq name (or_introl eq_refl)) as [Ht Hc].
    unfold _generateSchema. rewrite Ht, Hc. simpl.
    rewrite tableLoop_blocks. simpl.
    rewrite IH, <- app_assoc; [reflexivity|].
    intros n Hn. apply Hq. now right.
Qed.

(** X8: when every query resolves, the result of [generate] is a function of
    the answers alone: the shared output [_types] with the declaration of
    [JsonType], then for each schema row with a non-empty name, in order,
    the output bearing that name and holding, under the import line, the
    blocks of its named tables. *)
Theorem generate_result (svc : MySqlInfoService)
  (tablesOf : string -> list MySqlTable)
  (columnsOf : string -> list MySqlColumn) (rows : list MySqlSchema) :
  schemata svc = Resolved rows ->
  (forall n, In n (survivingNames rows) ->
     tables svc n = Resolved (tablesOf n) /\
     columns svc n = Resolved (columnsOf n)) ->
  generate getTsType svc =
  Resolved
    ({| schemaName := "_types";
        content := "
// recursive JSON type; you can append nullable or not
export type JsonType = string | number | boolean | { [x: string]: JsonType } | Array<JsonType>;
    " |} ::
     map (fun schema =>
            {| schemaName := schema;
               content := "
import { JsonType } from './_types';
" ++ String.concat "
"                (flat_map
                    (fun t =>
                       match table_name t with
                       | Some n =>
                           if n =? "" then []
                           else
                             [ _generateTableModels getTsType t
                                 (filter (fun c =>
                                            match column_table_name c with
                                            | Some m => m =? n
                                            | None => false
                                            end)
                                         (columnsOf schema)) ]
                       | None => []
                       end)
                    (tablesOf schema)) ++ "
" |})
         (survivingNames rows)).
Proof.
  intros Hs Hq. unfold generate. rewrite Hs. simpl await.
  rewrite (schemaLoop_outputs svc tablesOf columnsOf rows Hq).
  simpl app. f_equal. f_equal. apply map_ext. intros schema.
  unfold outputOf.
  rewrite <- (schema_output_text getTsType schema).
  now rewrite tableLoop_blocks.
Qed.

End GenerateResult.

(* ===================================================================== *)
(** * The catalog service *)
(* ===================================================================== *)

Lemma trimStart_blank (s : string) : isBlank s = true -> trimStart s = "".
Proof.
  induction s as [|c s IH]; simpl; [reflexivity|].
  rewrite andb_true_iff. intros [Hc Hs]. rewrite Hc. now apply IH.
Qed.

Lemma trimStart_not_blank (s : string) :
  isBlank s = false ->
  exists c s', trimStart s = String c s' /\ isWhiteSpace c = false.
Proof.
  induction s as [|c s IH]; simpl; [discriminate|].
  destruct (isWhiteSpace c) eqn:Hc; simpl.
  - apply IH.
  - intros _. now exists c, s.
Qed.

(** [s.trim()] is empty exactly when [s] holds white space only. *)
Lemma trim_empty_iff (s : string) : trim s = "" <-> isBlank s = true.
Proof.
  unfold trim. split.
  - intros H. destruct (isBlank s) eqn:Hb; [reflexivity|].
    destruct (trimStart_not_blank s Hb) as (c & s' & E & Hc).
    rewrite E in H. simpl in H. rewrite Hc in H. discriminate.
  - intros H. now rewrite trimStart_blank.
Qed.

Lemma newMySqlInfoService_cases (dbName : string) :
  (isBlank dbName = true ->
   newMySqlInfoService dbName = Rejected "invalid database name") /\
  (isBlank dbName = false ->
   newMySqlInfoService dbName = Resolved dbName).
Proof.
  unfold newMySqlInfoService. split; intros H.
  - apply trim_empty_iff in H. now rewrite H.
  - destruct (String.eqb_spec (trim dbName) "") as [E | _]; [|reflexivity].
    apply trim_empty_iff in E. congruence.
Qed.

(** X10: the constructor of [MySqlInfoService] throws exactly for a database
    name that is empty or made of white space only, and keeps any other
    name unchanged (not trimmed). *)
Theorem constructor_rejects_blank_names (dbName : string) :
  (newMySqlInfoService dbName = Rejected "invalid database name" <->
   isBlank dbName = true) /\
  (newMySqlInfoService dbName = Resolved dbName <->
   isBlank dbName = false).
Proof.
  destruct (newMySqlInfoService_cases dbName) as [Hb Hn].
  destruct (isBlank dbName).
  - rewrite (Hb eq_refl). split; split; trivial; discriminate.
  - rewrite (Hn eq_refl). split; split; trivial; discriminate.
Qed.

Section QueryProperties.

Variable TRow : Type.

Lemma pushAll_app (result : list TRow) : forall rows,
  pushAll rows result = (rows ++ result)%list.
Proof.
  unfold pushAll. induction result as [|r result IH]; intros rows; simpl.
  - now rewrite app_nil_r.
  - rewrite IH, <- app_assoc. reflexivity.
Qed.

(** X11: [query] resolves with the rows the client answered, in their order;
    it rejects with the error of [getConnection], or with the error of
    the client's query when that error is truthy. An error that is falsy
    (the empty text here) is logged and then dropped: [query] resolves
    with no row. *)
Theorem query_outcome (getConnection : Promise (Connection TRow))
  (text : string) (values : list string) :
  (forall err, getConnection = Rejected err ->
     snd (query getConnection text values) = Rejected err) /\
  (forall client result,
     getConnection = Resolved client ->
     client_query client text values = Resolved result ->
     snd (query getConnection text values) = Resolved result) /\
  (forall client err,
     getConnection = Resolved client ->
     client_query client text values = Rejected err ->
     err <> "" ->
     snd (query getConnection text values) = Rejected err) /\
  (forall client,
     getConnection = Resolved client ->
     client_query client text values = Rejected "" ->
     snd (query getConnection text values) = Resolved []).
Proof.
  unfold query. repeat split.
  - intros err ->. reflexivity.
  - intros client result -> H. simpl. rewrite H. simpl.
    now rewrite pushAll_app.
  - intros client err -> H Hne. simpl. rewrite H. simpl.
    destruct (String.eqb_spec err ""); [contradiction | reflexivity].
  - intros client -> H. simpl. rewrite H. reflexivity.
Qed.

(** X12: a connection that was obtained is released exactly once, as the last
    call of [query] and after the client's query, whether that query
    resolved or not; when no connection was obtained nothing is
    released. *)
Theorem query_releases_connection (getConnection : Promise (Connection TRow))
  (text : string) (values : list string) :
  (forall err, getConnection = Rejected err ->
     countEvents isRelease (fst (query getConnection text values)) = 0) /\
  (forall client, getConnection = Resolved client ->
     exists before,
       fst (query getConnection text values) = (before ++ [EvRelease])%list /\
       countEvents isRelease before = 0 /\
       In (EvClientQuery text values) before).
Proof.
  unfold query. split.
  - intros err ->. reflexivity.
  - intros client ->. simpl.
    destruct (client_query client text values) as [result|err]; simpl.
    + exists [EvGetConnection; EvClientQuery text values].
      repeat split; simpl; tauto.
    + exists [EvGetConnection; EvClientQuery text values;
              EvLoggerError mySqlMsgDbQueryError err].
      destruct (negb (err =? "")); repeat split; simpl; tauto.
Qed.


End QueryProperties.

(* ===================================================================== *)
(** * The command-line run *)
(* ===================================================================== *)

Section MainProperties.

Variable getTsType : MySqlColumn -> string.
Variable env : Environment.

(** The call of [writeSchemaFile] for an output. *)
Let toCall (outDir : string) (o : GenerateSchemaOutput)
  : string * string * string :=
  (outDir, schemaName o, content o).

Let written (outDir : string) (o : GenerateSchemaOutput) : Prop :=
  env_writeSchemaFile env outDir (schemaName o) (content o) = Resolved tt.

Lemma countEvents_app (f : Event -> bool) (t1 t2 : list Event) :
  countEvents f (t1 ++ t2)%list = countEvents f t1 + countEvents f t2.
Proof. unfold countEvents. now rewrite filter_app, length_app. Qed.

Lemma writeCalls_app (t1 t2 : list Event) :
  writeCalls (t1 ++ t2)%list = (writeCalls t1 ++ writeCalls t2)%list.
Proof. unfold writeCalls. now rewrite flat_map_app. Qed.

(** The loop calls [writeSchemaFile] on the outputs in order and stops
    after the first call that rejects. *)
Lemma writeLoop_calls (outDir : string) (outs : list GenerateSchemaOutput) :
  (exists k,
     writeCalls (fst (writeLoop env outDir outs)) =
       map (toCall outDir) (firstn k outs) /\
     (snd (writeLoop env outDir outs) = Resolved tt ->
      k = List.length outs)) /\
  (forall f, (forall d n b, f (EvWriteSchemaFile d n b) = false) ->
             countEvents f (fst (writeLoop env outDir outs)) = 0) /\
  (snd (writeLoop env outDir outs) = Resolved tt <->
   Forall (written outDir) outs).
Proof.
  induction outs as [|o outs IH]; simpl.
  - split; [|split].
    + exists 0. split; reflexivity.
    + reflexivity.
    + split; [constructor | reflexivity].
  - destruct IH as ((k & Hk & Hall) & Hcount & Hr).
    unfold call, bindT.
    destruct (env_writeSchemaFile env outDir (schemaName o) (content o))
      as [[]|err] eqn:E.
    + destruct (writeLoop env outDir outs) as [trace r]. simpl in *.
      split; [|split].
      * exists (S k). simpl. rewrite Hk. split; [reflexivity|].
        intros H. now rewrite (Hall H).
      * intros f Hf. unfold countEvents. simpl. rewrite Hf.
        exact (Hcount f Hf).
      * split.
        -- intros H. constructor; [exact E | now apply Hr].
        -- intros H. inversion H; subst. now apply Hr.
    + simpl. split; [|split].
      * exists 1. simpl. split; [reflexivity | discriminate].
      * intros f Hf. unfold countEvents. simpl. now rewrite Hf.
      * split; [discriminate|].
        intros H. inversion H as [|x l Hw _]; subst.
        unfold written in Hw. congruence.
Qed.

Lemma main_unfold :
  main getTsType env =
  match env_options env with
  | Rejected err => ([EvConsoleError err; EvExit (-1)], Resolved (-1)%Z)
  | Resolved options =>
      if trim (orDefault (opt_outdir options) "") =? "" then
        ([EvConsoleError "Output directory is required"; EvExit (-1)],
         Resolved (-1)%Z)
      else
        let dbOptions :=
          {| db_host := orDefault (opt_host options) "localhost";
             db_port := orDefault (opt_port options) "5432";
             db_user := orDefault (opt_user options) "";
             db_password := orDefault (opt_password options) "";
             db_database := orDefault (opt_database options) "" |} in
        match session getTsType env options with
        | (t, Resolved code) =>
            ((EvCreatePool dbOptions :: t ++ [EvPoolEnd; EvExit code])%list,
             Resolved code)
        | (t, Rejected err) =>
            ((EvCreatePool dbOptions :: t ++
              [EvPoolEnd; EvConsoleError err; EvExit (-1)])%list,
             Resolved (-1)%Z)
        end
  end.
Proof.
  unfold main, session.
  destruct (env_options env) as [options|err]; simpl; [|reflexivity].
  destruct (trim (orDefault (opt_outdir options) "") =? ""); simpl;
    [reflexivity|].
  destruct (env_selectOne env) as [[]|e1]; simpl; [|reflexivity].
  unfold newMySqlInfoService.
  destruct (trim (orDefault (opt_database options) "") =? ""); simpl;
    [reflexivity|].
  destruct (generate getTsType (env_catalog env)) as [outs|e2]; simpl;
    [|reflexivity].
  destruct (writeLoop env (trim (orDefault (opt_outdir options) "")) outs)
    as [tw [[]|e3]]; simpl; rewrite <- ?app_assoc; reflexivity.
Qed.

(** The session never rejects (its handler catches every error); it
    yields 0 exactly when each of its steps succeeded, and -1 otherwise;
    its calls of [writeSchemaFile] are a prefix of the outputs. *)
Lemma session_cases (options : Options) :
  let outDir := trim (orDefault (opt_outdir options) "") in
  exists t code,
    session getTsType env options = (t, Resolved code) /\
    (code = 0%Z \/ code = (-1)%Z) /\
    (code = 0%Z <->
     env_selectOne env = Resolved tt /\
     isBlank (orDefault (opt_database options) "") = false /\
     exists outs,
       generate getTsType (env_catalog env) = Resolved outs /\
       Forall (written outDir) outs) /\
    countEvents isPoolEnd t = 0 /\
    countEvents isCreatePool t = 0 /\
    (forall err, generate getTsType (env_catalog env) = Rejected err ->
                 writeCalls t = []) /\
    (forall outs, generate getTsType (env_catalog env) = Resolved outs ->
       exists k, writeCalls t = map (toCall outDir) (firstn k outs) /\
                 (code = 0%Z -> k = List.length outs)).
Proof.
  intros outDir. unfold session. fold outDir.
  destruct (env_selectOne env) as [[]|e1]; simpl.
  2:{ eexists; eexists. split; [reflexivity|].
      repeat split; try tauto; try discriminate.
      - intros [H _]; discriminate.
      - intros outs _. exists 0. split; [reflexivity | discriminate]. }
  destruct (newMySqlInfoService_cases (orDefault (opt_database options) ""))
    as [Hblank Hname].
  destruct (isBlank (orDefault (opt_database options) "")) eqn:Hb.
  { rewrite (Hblank eq_refl). simpl.
    eexists; eexists. split; [reflexivity|].
    repeat split; try tauto; try discriminate.
    - intros (_ & H & _); discriminate.
    - intros outs _. exists 0. split; [reflexivity | discriminate]. }
  rewrite (Hname eq_refl). simpl.
  destruct (generate getTsType (env_catalog env)) as [outs|e2]; simpl.
  2:{ eexists; eexists. split; [reflexivity|].
      repeat split; try tauto; try discriminate.
      intros (_ & _ & outs & H & _); discriminate. }
  generalize (writeLoop_calls outDir outs).
  destruct (writeLoop env outDir outs) as [tw [[]|e3]]; simpl;
    intros ((k & Hk & Hall) & Hcount & Hr).
  - eexists; eexists. split; [reflexivity|].
    rewrite app_nil_r.
    repeat split; try tauto; try discriminate.
    + exists outs. split; [reflexivity | now apply Hr].
    + change (EvPoolQuery "SELECT 1 AS success" :: tw)
        with ([EvPoolQuery "SELECT 1 AS success"] ++ tw)%list.
      rewrite countEvents_app, Hcount; reflexivity.
    + change (EvPoolQuery "SELECT 1 AS success" :: tw)
        with ([EvPoolQuery "SELECT 1 AS success"] ++ tw)%list.
      rewrite countEvents_app, Hcount; reflexivity.
    + intros outs' [= <-]. exists k. simpl. split; [exact Hk | tauto].
  - eexists; eexists. split; [reflexivity|].
    repeat split; try tauto; try discriminate.
    + intros (_ & _ & outs' & [= <-] & HF). apply Hr in HF. discriminate.
    + change (EvPoolQuery "SELECT 1 AS success" :: (tw ++ [EvConsoleError e3]))%list
        with ([EvPoolQuery "SELECT 1 AS success"] ++ tw ++ [EvConsoleError e3])%list.
      rewrite !countEvents_app, Hcount; reflexivity.
    + change (EvPoolQuery "SELECT 1 AS success" :: (tw ++ [EvConsoleError e3]))%list
        with ([EvPoolQuery "SELECT 1 AS success"] ++ tw ++ [EvConsoleError e3])%list.
      rewrite !countEvents_app, Hcount; reflexivity.
    + intros outs' [= <-]. exists k.
      change (EvPoolQuery "SELECT 1 AS success" :: (tw ++ [EvConsoleError e3]))%list
        with ([EvPoolQuery "SELECT 1 AS success"] ++ tw ++ [EvConsoleError e3])%list.
      rewrite !writeCalls_app. simpl. rewrite app_nil_r.
      split; [exact Hk | discriminate].
Qed.


(** X15: the pool is created at most once, and a pool that was created is
    ended exactly once, whatever failed in between; no file is written
    after that. No pool is created when the options could not be read or
    the output directory is blank. *)
Theorem main_ends_the_pool_it_creates :
  let trace := fst (main getTsType env) in
  countEvents isPoolEnd trace = countEvents isCreatePool trace /\
  (forall options,
     env_options env = Resolved options ->
     isBlank (orDefault (opt_outdir options) "") = false ->
     exists dbOptions before after,
       trace = (EvCreatePool dbOptions :: before ++ EvPoolEnd :: after)%list /\
       db_database dbOptions = orDefault (opt_database options) "" /\
       db_port dbOptions = orDefault (opt_port options) "5432" /\
       countEvents isCreatePool before = 0 /\
       countEvents isPoolEnd before = 0 /\
       countEvents isCreatePool after = 0 /\
       countEvents isPoolEnd after = 0 /\
       writeCalls after = []) /\
  ((forall options,
      env_options env = Resolved options ->
      isBlank (orDefault (opt_outdir options) "") = true) ->
   countEvents isCreatePool trace = 0 /\ writeCalls trace = []).
Proof.
  cbv zeta. rewrite main_unfold.
  destruct (env_options env) as [options|err].
  2:{ split; [reflexivity|]. split; [discriminate|]. intros _. now split. }
  destruct (String.eqb_spec (trim (orDefault (opt_outdir options) "")) "")
    as [Hd | Hd].
  { split; [reflexivity|]. split.
    - intros o [= <-] Hb. apply trim_empty_iff in Hd. congruence.
    - intros _. now split. }
  destruct (session_cases options)
    as (t & code & -> & _ & _ & Hend & Hcreate & _). cbv zeta. simpl fst.
  split; [|split].
  - change (EvCreatePool ?d :: ?l) with ([EvCreatePool d] ++ l)%list.
    rewrite !countEvents_app, Hend, Hcreate. reflexivity.
  - intros o [= <-] Hb.
    eexists; exists t, [EvExit code]. repeat split; trivial.
  - intros H. specialize (H options eq_refl).
    apply trim_empty_iff in H. contradiction.
Qed.

(** The loop writes the outputs in order until a call rejects. *)
Lemma writeLoop_stops (outDir : string) (outs : list GenerateSchemaOutput) :
  exists done rest,
    outs = (done ++ rest)%list /\
    Forall (written outDir) done /\
    match rest with
    | [] =>
        writeCalls (fst (writeLoop env outDir outs)) =
          map (toCall outDir) done /\
        snd (writeLoop env outDir outs) = Resolved tt
    | failed :: _ =>
        writeCalls (fst (writeLoop env outDir outs)) =
          map (toCall outDir) (done ++ [failed]) /\
        exists err,
          env_writeSchemaFile env outDir (schemaName failed) (content failed)
            = Rejected err /\
          snd (writeLoop env outDir outs) = Rejected err
    end.
Proof.
  induction outs as [|o outs IH].
  - exists [], []. repeat split; constructor.
  - destruct IH as (done & rest & -> & Hdone & Hrest).
    simpl writeLoop. unfold call, bindT.
    destruct (env_writeSchemaFile env outDir (schemaName o) (content o))
      as [[]|err] eqn:E.
    + exists (o :: done), rest. split; [reflexivity|].
      split; [constructor; assumption|].
      destruct (writeLoop env outDir (done ++ rest)) as [tw rw].
      simpl in *. destruct rest as [|failed rest'].
      * destruct Hrest as [Hc Hr]. now rewrite Hc.
      * destruct Hrest as [Hc Hr]. now rewrite Hc.
    + exists [], (o :: done ++ rest)%list. split; [reflexivity|].
      split; [constructor|]. simpl. split; [reflexivity|]. now exists err.
Qed.

Lemma session_write_calls (options : Options) :
  let outDir := trim (orDefault (opt_outdir options) "") in
  let s := session getTsType env options in
  (forall err, env_selectOne env = Rejected err -> writeCalls (fst s) = []) /\
  (isBlank (orDefault (opt_database options) "") = true ->
   writeCalls (fst s) = []) /\
  (forall err, generate getTsType (env_catalog env) = Rejected err ->
     writeCalls (fst s) = []) /\
  (forall outs,
     env_selectOne env = Resolved tt ->
     isBlank (orDefault (opt_database options) "") = false ->
     generate getTsType (env_catalog env) = Resolved outs ->
     writeCalls (fst s) = writeCalls (fst (writeLoop env outDir outs)) /\
     (snd (writeLoop env outDir outs) = Resolved tt ->
      snd s = Resolved 0%Z) /\
     (forall err, snd (writeLoop env outDir outs) = Rejected err ->
      snd s = Resolved (-1)%Z)).
Proof.
  intros outDir s. subst s. unfold session. fold outDir.
  destruct (newMySqlInfoService_cases (orDefault (opt_database options) ""))
    as [Hblank Hname].
  destruct (env_selectOne env) as [[]|e1]; simpl.
  2:{ repeat (split; [intros; reflexivity|]).
      intros outs H. discriminate H. }
  destruct (isBlank (orDefault (opt_database options) "")) eqn:Hb.
  { rewrite (Hblank eq_refl). simpl.
    repeat (split; [intros; reflexivity|]).
    intros outs _ H. discriminate H. }
  rewrite (Hname eq_refl). simpl.
  destruct (generate getTsType (env_catalog env)) as [outs|e2]; simpl.
  2:{ repeat (split; [intros; reflexivity|]).
      intros outs _ _ H. discriminate H. }
  split; [intros err H; discriminate H|].
  split; [intros H; discriminate H|].
  split; [intros err H; discriminate H|].
  intros outs' _ _ [= <-].
  destruct (writeLoop env outDir outs) as [tw [[]|e3]]; simpl.
  - rewrite app_nil_r. split; [reflexivity|].
    split; [reflexivity | intros err H; discriminate H].
  - change (EvPoolQuery "SELECT 1 AS success" :: (tw ++ [EvConsoleError e3]))%list
      with ([EvPoolQuery "SELECT 1 AS success"] ++ tw ++ [EvConsoleError e3])%list.
    rewrite !writeCalls_app. simpl. rewrite app_nil_r.
    split; [reflexivity|].
    split; [intros H; discriminate H | reflexivity].
Qed.

Lemma main_of_session (options : Options) :
  env_options env = Resolved options ->
  isBlank (orDefault (opt_outdir options) "") = false ->
  writeCalls (fst (main getTsType env)) =
    writeCalls (fst (session getTsType env options)) /\
  (forall code, snd (session getTsType env options) = Resolved code ->
     snd (main getTsType env) = Resolved code).
Proof.
  intros Ho Hb. rewrite main_unfold, Ho.
  destruct (String.eqb_spec (trim (orDefault (opt_outdir options) "")) "")
    as [E | _].
  { apply trim_empty_iff in E. congruence. }
  cbv zeta.
  destruct (session getTsType env options) as [t [code|err]]; simpl.
  - split.
    + change (EvCreatePool ?d :: ?l) with ([EvCreatePool d] ++ l)%list.
      rewrite !writeCalls_app. simpl. now rewrite app_nil_r.
    + now intros c [= <-].
  - split; [|discriminate].
    change (EvCreatePool ?d :: ?l) with ([EvCreatePool d] ++ l)%list.
    rewrite !writeCalls_app. simpl. now rewrite app_nil_r.
Qed.

(** X16: files are written only from a complete result of [generate]: no call
    of [writeSchemaFile] is made when the options cannot be read, the
    output directory or the database name is blank, the connection check
    rejects or [generate] rejects. Otherwise [writeSchemaFile] is called,
    with the trimmed output directory, on the outputs in their order: on
    all of them when every call resolves (exit code 0), and else up to and
    including the first call that rejects, after which none is made
    (exit code -1). *)
Theorem main_writes_a_prefix_of_the_outputs :
  let calls := writeCalls (fst (main getTsType env)) in
  (forall err, env_options env = Rejected err -> calls = []) /\
  (forall options,
     env_options env = Resolved options ->
     isBlank (orDefault (opt_outdir options) "") = true \/
     isBlank (orDefault (opt_database options) "") = true \/
     (exists err, env_selectOne env = Rejected err) \/
     (exists err, generate getTsType (env_catalog env) = Rejected err) ->
     calls = []) /\
  (forall options outs,
     env_options env = Resolved options ->
     isBlank (orDefault (opt_outdir options) "") = false ->
     isBlank (orDefault (opt_database options) "") = false ->
     env_selectOne env = Resolved tt ->
     generate getTsType (env_catalog env) = Resolved outs ->
     let outDir := trim (orDefault (opt_outdir options) "") in
     exists done rest,
       outs = (done ++ rest)%list /\
       Forall (fun o =>
                 env_writeSchemaFile env outDir (schemaName o) (content o)
                 = Resolved tt)
              done /\
       match rest with
       | [] =>
           calls = map (fun o => (outDir, schemaName o, content o)) done /\
           snd (main getTsType env) = Resolved 0%Z
       | failed :: _ =>
           calls =
             map (fun o => (outDir, schemaName o, content o))
                 (done ++ [failed]) /\
           (exists err,
              env_writeSchemaFile env outDir (schemaName failed)
                (content failed) = Rejected err) /\
           snd (main getTsType env) = Resolved (-1)%Z
       end).
Proof.
  cbv zeta. split; [|split].
  - intros err Ho. rewrite main_unfold, Ho. reflexivity.
  - intros options Ho Hcase.
    destruct (isBlank (orDefault (opt_outdir options) "")) eqn:Hb.
    { rewrite main_unfold, Ho. apply trim_empty_iff in Hb.
      now rewrite Hb. }
    destruct (@main_of_session options Ho Hb) as [-> _].
    destruct (session_write_calls options) as (H1 & H2 & H3 & _).
    destruct Hcase as [H | [H | [[err H] | [err H]]]].
    + discriminate.
    + now apply H2.
    + now apply (H1 err).
    + now apply (H3 err).
  - intros options outs Ho Hb Hd Hp Hg.
    destruct (@main_of_session options Ho Hb) as [-> Hcode].
    destruct (session_write_calls options) as (_ & _ & _ & H4).
    destruct (H4 outs Hp Hd Hg) as (-> & Hok & Hko).
    destruct (writeLoop_stops (trim (orDefault (opt_outdir options) "")) outs)
      as (done & rest & E & Hdone & Hrest).
    exists done, rest. split; [exact E|]. split; [exact Hdone|].
    destruct rest as [|failed rest'].
    + destruct Hrest as [Hc Hr]. split; [exact Hc|].
      apply Hcode. now apply Hok.
    + destruct Hrest as (Hc & err & Hw & Hr).
      split; [exact Hc|]. split; [now exists err|].
      apply Hcode. now apply (Hko err).
Qed.

End MainProperties.

(* ===================================================================== *)
(** * Runs on concrete catalogs, continued *)
(* ===================================================================== *)

Lemma generateSchema_content_witness :
  _generateSchema Utils.getTsType
    (catalogOf [] [ {| table_comment := None; table_name := None |};
                    table_users ]) "shop" =
  Resolved
    {| schemaName := "shop";
       content := "
import { JsonType } from './_types';
" ++ _generateTableModels Utils.getTsType table_users [column_bio; column_id]
  ++ "
" |}.
Proof.
  exact (@generateSchema_content Utils.getTsType
           (catalogOf [] [ {| table_comment := None; table_name := None |};
                           table_users ]) "shop"
           [ {| table_comment := None; table_name := None |}; table_users ]
           [column_bio; column_id] eq_refl eq_refl).
Defined.

(** The schema of the two sample columns: [bio] comes before [id], as the
    column query answers them. *)
Lemma fields_follow_column_rows_witness :
  _generateSchema Utils.getTsType
    (catalogOf [] [ {| table_comment := None; table_name := None |};
                    table_users ]) "shop" =
  Resolved {| schemaName := "shop"; content := "
import { JsonType } from './_types';

/**
 * Model for read & write operations on table users
 */
export interface usersDtoWritable {

  /**
   * User biography
   * Type: varchar(255)
   * Default value: null
   */
  bio: string | null;

  /**
   * Type: bigint
   * Default value: null
   */
  id: number;
}
export type usersDto = usersDtoWritable;
" |}.
Proof.
  exact (proj1
           (@fields_follow_column_rows Utils.getTsType
              (catalogOf [] [ {| table_comment := None; table_name := None |};
                              table_users ]) "shop"
              [ {| table_comment := None; table_name := None |}; table_users ]
              [column_bio; column_id] eq_refl eq_refl)).
Defined.

Lemma unlisted_table_columns_are_ignored_witness :
  _generateSchema Utils.getTsType (catalogOf [] [table_users]) "shop" =
  _generateSchema Utils.getTsType (catalogWithView [table_users]) "shop".
Proof.
  apply (unlisted_table_columns_are_ignored Utils.getTsType
           (catalogWithView [table_users]) (catalogOf [] [table_users]) "shop"
           (tableRows := [table_users])
           (columnRows := [column_bio; column_of_view; column_id]));
    reflexivity.
Defined.

Lemma output_names_distinct_iff_witness :
  exists out,
    generate Utils.getTsType
      (catalogOf [ {| schema_name := Some "shop" |};
                   {| schema_name := Some "_types" |} ] []) = Resolved out /\
    (NoDup (map schemaName out) <->
     NoDup ["shop"; "_types"] /\ ~ In "_types" ["shop"; "_types"]).
Proof.
  eexists. split; [reflexivity|].
  apply (output_names_distinct_iff Utils.getTsType
           (catalogOf [ {| schema_name := Some "shop" |};
                        {| schema_name := Some "_types" |} ] [])
           (rows := [ {| schema_name := Some "shop" |};
                      {| schema_name := Some "_types" |} ]));
    reflexivity.
Defined.

Lemma generate_result_witness :
  generate Utils.getTsType
    (catalogOf [ {| schema_name := Some "shop" |};
                 {| schema_name := Some "" |};
                 {| schema_name := Some "blog" |} ] [table_users]) =
  Resolved
    [ {| schemaName := "_types";
         content := "
// recursive JSON type; you can append nullable or not
export type JsonType = string | number | boolean | { [x: string]: JsonType } | Array<JsonType>;
    " |};
      {| schemaName := "shop"; content := "
import { JsonType } from './_types';

/**
 * Model for read & write operations on table users
 */
export interface usersDtoWritable {

  /**
   * User biography
   * Type: varchar(255)
   * Default value: null
   */
  bio: string | null;

  /**
   * Type: bigint
   * Default value: null
   */
  id: number;
}
export type usersDto = usersDtoWritable;
" |};
      {| schemaName := "blog"; content := "
import { JsonType } from './_types';

/**
 * Model for read & write operations on table users
 */
export interface usersDtoWritable {

  /**
   * User biography
   * Type: varchar(255)
   * Default value: null
   */
  bio: string | null;

  /**
   * Type: bigint
   * Default value: null
   */
  id: number;
}
export type usersDto = usersDtoWritable;
" |} ].
Proof.
  apply (@generate_result Utils.getTsType
           (catalogOf [ {| schema_name := Some "shop" |};
                        {| schema_name := Some "" |};
                        {| schema_name := Some "blog" |} ] [table_users])
           (fun _ => [table_users]) (fun _ => [column_bio; column_id])
           [ {| schema_name := Some "shop" |};
             {| schema_name := Some "" |};
             {| schema_name := Some "blog" |} ]).
  - reflexivity.
  - intros n _. split; reflexivity.
Defined.
